(** * OrangeWeb3: engagement and progression engine

    A shallow embedding of the server side of the repository:
    the table schemas of [shared/schema.ts], the storage layer
    ([DatabaseStorage], [server/storage.ts]) and the request handlers of
    [server/routes.ts] that the specification's engagement and progression
    engine is written from.

    The PostgreSQL store is a record of tables; every table is the list of
    its rows, in insertion order, together with the next value of its
    [serial] id sequence.  Storage methods are state transformers over the
    store that may throw; nothing in the source runs inside a transaction,
    so a throw keeps every write made before it. *)

From stdpp Require Import base decidable option list sorting strings gmap.

Local Open Scope Z_scope.

(** ** Rows ([shared/schema.ts])

    [integer] and [serial] columns are [Z] (the 32-bit range of PostgreSQL
    is not modelled), [timestamp] columns are [Z] clock readings, nullable
    columns are [option]s. *)

Module User.
Record t := mk
  { id : Z; username : string; password : string;
    displayName : option string; bio : option string;
    avatarUrl : option string; createdAt : Z }.
Definition set_password (p : string) (u : t) : t :=
  mk (id u) (username u) p (displayName u) (bio u) (avatarUrl u)
     (createdAt u).
End User.

Module Vibe.
Record t := mk
  { id : Z; userId : Z; content : option string;
    mediaUrl : option string; mediaType : option string;
    hashtags : option (list string); createdAt : Z }.
End Vibe.

Module Comment.
Record t := mk
  { id : Z; vibeId : Z; userId : Z; content : string; createdAt : Z }.
End Comment.

Module Like.
Record t := mk
  { id : Z; vibeId : Z; userId : Z; isLike : bool; createdAt : Z }.
Definition set_isLike (b : bool) (l : t) : t :=
  mk (id l) (vibeId l) (userId l) b (createdAt l).
End Like.

Module Connection.
Record t := mk
  { id : Z; userId : Z; connectedToId : Z; status : string; createdAt : Z }.
Definition set_status (s : string) (c : t) : t :=
  mk (id c) (userId c) (connectedToId c) s (createdAt c).
End Connection.

Module Notification.
Record t := mk
  { id : Z; userId : Z; type : string; fromUserId : option Z;
    entityId : option Z; content : option string; isRead : bool;
    createdAt : Z }.
End Notification.

Module Message.
Record t := mk
  { id : Z; senderId : Z; receiverId : Z; content : string;
    isRead : bool; createdAt : Z }.
End Message.

Module Quest.
Record t := mk
  { id : Z; title : string; description : option string; xpReward : Z;
    relatedModuleId : option Z; createdAt : Z }.
End Quest.

Module UserQuestProgress.
Record t := mk
  { id : Z; userId : Z; questId : Z; completed : bool;
    completedAt : option Z }.
End UserQuestProgress.

Module UserLevel.
Record t := mk { id : Z; userId : Z; level : Z; xp : Z; updatedAt : Z }.
End UserLevel.

(** The insert shapes ([createInsertSchema(...).pick(...)]). *)

Record InsertComment := { ic_vibeId : Z; ic_userId : Z; ic_content : string }.
Record InsertLike := { il_vibeId : Z; il_userId : Z; il_isLike : bool }.
Record InsertConnection :=
  { icn_userId : Z; icn_connectedToId : Z; icn_status : string }.
Record InsertNotification :=
  { in_userId : Z; in_type : string; in_fromUserId : option Z;
    in_entityId : option Z; in_content : option string; in_isRead : bool }.
Record InsertMessage :=
  { im_senderId : Z; im_receiverId : Z; im_content : string;
    im_isRead : bool }.

(** ** Tables and the store *)

Record Table (A : Type) := mkTable { rows : list A; nextId : Z }.
Arguments mkTable {A} _ _.
Arguments rows {A} _.
Arguments nextId {A} _.

Definition emptyTable {A} : Table A := mkTable [] 1.

(** [db.insert(t).values(v).returning()]: the sequence gives the id. *)
Definition insertRow {A} (mkRow : Z → A) (t : Table A) : A * Table A :=
  let r := mkRow (nextId t) in (r, mkTable (rows t ++ [r]) (nextId t + 1)).

(** [db.update(t).set(f).where(P).returning()]: the updated rows. *)
Definition updateRows {A} (P : A → Prop) `{!∀ x, Decision (P x)}
    (f : A → A) (t : Table A) : list A * Table A :=
  (f <$> filter P (rows t),
   mkTable ((λ r, if decide (P r) then f r else r) <$> rows t) (nextId t)).

Record DB := mkDB
  { users : Table User.t;
    vibes : Table Vibe.t;
    comments : Table Comment.t;
    likes : Table Like.t;
    connections : Table Connection.t;
    notifications : Table Notification.t;
    messages : Table Message.t;
    quests : Table Quest.t;
    userQuestProgress : Table UserQuestProgress.t;
    userLevel : Table UserLevel.t }.

Definition emptyDB : DB :=
  mkDB emptyTable emptyTable emptyTable emptyTable emptyTable
       emptyTable emptyTable emptyTable emptyTable emptyTable.

Definition with_comments (t : Table Comment.t) (db : DB) : DB :=
  mkDB (users db) (vibes db) t (likes db) (connections db)
       (notifications db) (messages db) (quests db)
       (userQuestProgress db) (userLevel db).
Definition with_likes (t : Table Like.t) (db : DB) : DB :=
  mkDB (users db) (vibes db) (comments db) t (connections db)
       (notifications db) (messages db) (quests db)
       (userQuestProgress db) (userLevel db).
Definition with_connections (t : Table Connection.t) (db : DB) : DB :=
  mkDB (users db) (vibes db) (comments db) (likes db) t
       (notifications db) (messages db) (quests db)
       (userQuestProgress db) (userLevel db).
Definition with_notifications (t : Table Notification.t) (db : DB) : DB :=
  mkDB (users db) (vibes db) (comments db) (likes db) (connections db)
       t (messages db) (quests db)
       (userQuestProgress db) (userLevel db).
Definition with_messages (t : Table Message.t) (db : DB) : DB :=
  mkDB (users db) (vibes db) (comments db) (likes db) (connections db)
       (notifications db) t (quests db)
       (userQuestProgress db) (userLevel db).

(** ** Storage calls as state transformers that may throw *)

Inductive Error :=
  | ForeignKeyViolation (table column : string)
  | NotFoundError (what : string)
  | ValidationError (what : string).

Inductive Result (A : Type) :=
  | Ok (a : A)
  | Throw (e : Error).
Arguments Ok {A} _.
Arguments Throw {A} _.

Definition Db (A : Type) : Type := DB → Result A * DB.

Definition ret {A} (a : A) : Db A := λ db, (Ok a, db).
Definition bind {A B} (m : Db A) (k : A → Db B) : Db B :=
  λ db, match m db with
        | (Ok a, db') => k a db'
        | (Throw e, db') => (Throw e, db')
        end.
Definition query {A} (f : DB → A) : Db A := λ db, (Ok (f db), db).

Notation "'await' x ← m ; k" := (bind m (λ x, k))
  (at level 10, x name, m at level 100, k at level 200,
   format "'[v' 'await'  x  ←  m ; '/' k ']'").

(** ** The storage layer ([DatabaseStorage]) *)

Definition userExists (id : Z) (db : DB) : Prop :=
  id ∈ User.id <$> rows (users db).
Definition vibeExists (id : Z) (db : DB) : Prop :=
  id ∈ Vibe.id <$> rows (vibes db).

#[global] Instance userExists_dec id db : Decision (userExists id db).
Proof. unfold userExists. apply _. Defined.
#[global] Instance vibeExists_dec id db : Decision (vibeExists id db).
Proof. unfold vibeExists. apply _. Defined.

(** [references(() => users.id)] on a nullable column. *)
Definition optUserExists (id : option Z) (db : DB) : Prop :=
  match id with Some i => userExists i db | None => True end.

#[global] Instance optUserExists_dec id db : Decision (optUserExists id db).
Proof. destruct id; simpl; apply _. Defined.

(** *** Users and vibes *)

Definition getUser (id : Z) (db : DB) : option User.t :=
  head (filter (λ u, User.id u = id) (rows (users db))).

Definition getVibeById (id : Z) (db : DB) : option Vibe.t :=
  head (filter (λ v, Vibe.id v = id) (rows (vibes db))).

(** [ORDER BY created_at DESC]: the order of rows with equal keys is left
    to PostgreSQL; the model sorts with a merge sort. *)
Definition newerFirst (a b : Vibe.t) : Prop :=
  Vibe.createdAt b ≤ Vibe.createdAt a.

(** [count(likes.id)] of the left join on
    [likes.vibeId = vibes.id AND likes.isLike = true], for one vibe. *)
Definition likesCount (vibeId : Z) (db : DB) : nat :=
  length (filter (λ l, Like.vibeId l = vibeId ∧ Like.isLike l = true)
                 (rows (likes db))).

Definition moreLikesFirst (a b : Z * nat) : Prop := (b.2 ≤ a.2)%nat.

#[global] Instance newerFirst_dec a b : Decision (newerFirst a b).
Proof. unfold newerFirst. apply _. Defined.
#[global] Instance moreLikesFirst_dec a b : Decision (moreLikesFirst a b).
Proof. unfold moreLikesFirst. apply _. Defined.

(** [limit] is a row count; PostgreSQL rejects a negative [LIMIT]. *)
Definition getTrendingVibes (limit : nat) (db : DB) : list Vibe.t :=
  let result :=
    take limit
      (merge_sort moreLikesFirst
         ((λ v, (Vibe.id v, likesCount (Vibe.id v) db)) <$> rows (vibes db)))
  in
  let vibeIds := result.*1 in
  if decide (length vibeIds = 0%nat) then []
  else merge_sort newerFirst
         (filter (λ v, Vibe.id v ∈ vibeIds) (rows (vibes db))).

(** [hashtags @> ARRAY[hashtag]::text[]]: array containment compares the
    elements with text equality; on a NULL array it is NULL and the row is
    not selected. *)
Definition hasHashtag (hashtag : string) (v : Vibe.t) : Prop :=
  match Vibe.hashtags v with
  | Some tags => hashtag ∈ tags
  | None => False
  end.

#[global] Instance hasHashtag_dec hashtag v : Decision (hasHashtag hashtag v).
Proof. unfold hasHashtag. destruct (Vibe.hashtags v); apply _. Defined.

Definition getVibesByHashtag (hashtag : string) (db : DB) : list Vibe.t :=
  merge_sort newerFirst (filter (hasHashtag hashtag) (rows (vibes db))).

(** *** Comments *)

Definition createComment (c : InsertComment) (now : Z) : Db Comment.t :=
  λ db,
    if decide (vibeExists (ic_vibeId c) db) then
      if decide (userExists (ic_userId c) db) then
        let '(r, t) :=
          insertRow (λ i, Comment.mk i (ic_vibeId c) (ic_userId c)
                                     (ic_content c) now) (comments db) in
        (Ok r, with_comments t db)
      else (Throw (ForeignKeyViolation "comments" "user_id"), db)
    else (Throw (ForeignKeyViolation "comments" "vibe_id"), db).

(** *** Likes *)

Definition getLikeByUserAndVibe (userId vibeId : Z) (db : DB)
    : option Like.t :=
  head (filter (λ l, Like.userId l = userId ∧ Like.vibeId l = vibeId)
               (rows (likes db))).

Definition createOrUpdateLike (like : InsertLike) (now : Z)
    : Db (option Like.t) :=
  λ db,
    match getLikeByUserAndVibe (il_userId like) (il_vibeId like) db with
    | Some existingLike =>
        let '(updated, t) :=
          updateRows (λ l, Like.id l = Like.id existingLike)
                     (Like.set_isLike (il_isLike like)) (likes db) in
        (Ok (head updated), with_likes t db)
    | None =>
        if decide (vibeExists (il_vibeId like) db) then
          if decide (userExists (il_userId like) db) then
            let '(newLike, t) :=
              insertRow (λ i, Like.mk i (il_vibeId like) (il_userId like)
                                      (il_isLike like) now) (likes db) in
            (Ok (Some newLike), with_likes t db)
          else (Throw (ForeignKeyViolation "likes" "user_id"), db)
        else (Throw (ForeignKeyViolation "likes" "vibe_id"), db)
    end.

(** *** Connections *)

Definition createConnection (c : InsertConnection) (now : Z)
    : Db Connection.t :=
  λ db,
    if decide (userExists (icn_userId c) db) then
      if decide (userExists (icn_connectedToId c) db) then
        let '(r, t) :=
          insertRow (λ i, Connection.mk i (icn_userId c)
                            (icn_connectedToId c) (icn_status c) now)
                    (connections db) in
        (Ok r, with_connections t db)
      else (Throw (ForeignKeyViolation "connections" "connected_to_id"), db)
    else (Throw (ForeignKeyViolation "connections" "user_id"), db).

Definition getConnectionById (id : Z) (db : DB) : option Connection.t :=
  head (filter (λ c, Connection.id c = id) (rows (connections db))).

Definition getConnectionByUsers (userId connectedToId : Z) (db : DB)
    : option Connection.t :=
  head (filter (λ c, Connection.userId c = userId
                     ∧ Connection.connectedToId c = connectedToId)
               (rows (connections db))).

Definition updateConnectionStatus (id : Z) (status : string)
    : Db (option Connection.t) :=
  λ db,
    let '(updated, t) :=
      updateRows (λ c, Connection.id c = id)
                 (Connection.set_status status) (connections db) in
    (Ok (head updated), with_connections t db).

(** *** Notifications and messages *)

Definition createNotification (n : InsertNotification) (now : Z)
    : Db Notification.t :=
  λ db,
    if decide (userExists (in_userId n) db) then
      if decide (optUserExists (in_fromUserId n) db) then
        let '(r, t) :=
          insertRow (λ i, Notification.mk i (in_userId n) (in_type n)
                            (in_fromUserId n) (in_entityId n)
                            (in_content n) (in_isRead n) now)
                    (notifications db) in
        (Ok r, with_notifications t db)
      else (Throw (ForeignKeyViolation "notifications" "from_user_id"), db)
    else (Throw (ForeignKeyViolation "notifications" "user_id"), db).

Definition createMessage (m : InsertMessage) (now : Z) : Db Message.t :=
  λ db,
    if decide (userExists (im_senderId m) db) then
      if decide (userExists (im_receiverId m) db) then
        let '(r, t) :=
          insertRow (λ i, Message.mk i (im_senderId m) (im_receiverId m)
                            (im_content m) (im_isRead m) now)
                    (messages db) in
        (Ok r, with_messages t db)
      else (Throw (ForeignKeyViolation "messages" "receiver_id"), db)
    else (Throw (ForeignKeyViolation "messages" "sender_id"), db).

(** *** Quests and levels

    [IStorage] declares [getQuestById], [getUserQuestProgressByQuest],
    [completeUserQuest], [getUserLevel] and [addUserXp]; the class in the
    source file stops before them, so they follow the specification. *)





Section Progression.

(** The configured xp-threshold table, as the level it gives to an XP
    total. *)
Variable levelForXp : Z → Z.



End Progression.

(** ** Responses *)

Inductive JsVal :=
  | JNum (n : Z)
  | JStr (s : string)
  | JNull.

Definition strOrNull (o : option string) : JsVal :=
  match o with Some s => JStr s | None => JNull end.

(** A selected user row as the JavaScript object drizzle returns. *)
Definition userObject (u : User.t) : gmap string JsVal :=
  list_to_map
    [ ("id", JNum (User.id u));
      ("username", JStr (User.username u));
      ("password", JStr (User.password u));
      ("displayName", strOrNull (User.displayName u));
      ("bio", strOrNull (User.bio u));
      ("avatarUrl", strOrNull (User.avatarUrl u));
      ("createdAt", JNum (User.createdAt u)) ].

Inductive Body :=
  | NoBody
  | JsonMessage (message : string)
  | JsonZodError (message : string)
  | JsonObject (o : gmap string JsVal)
  | JsonVibes (vs : list Vibe.t)
  | JsonComment (c : Comment.t)
  | JsonLike (l : option Like.t)
  | JsonConnection (c : option Connection.t)
  | JsonChatMessage (m : Message.t)
  | JsonQuestProgress (p : UserQuestProgress.t).

Record Response := mkResponse { statusCode : Z; json : Body }.

Definition send (code : Z) (b : Body) : Db Response :=
  ret (mkResponse code b).

(** ** Request handlers ([server/routes.ts])

    A request carries the user id of its session, if any; passport's
    [deserializeUser] loads [req.user] with [storage.getUser], so
    [req.isAuthenticated()] holds when that user is in the store.  Numeric
    path parameters are integers; a body field that the zod schema of the
    handler rejects is [None].  [Throw] is [next(error)]. *)

Definition reqUser (session : option Z) (db : DB) : option User.t :=
  session ≫= λ id, getUser id db.

(** [GET /api/vibes/hashtag/:hashtag] *)
Definition get_vibes_by_hashtag (hashtag : string) : Db Response :=
  await vibes ← query (getVibesByHashtag hashtag);
  send 200 (JsonVibes vibes).

(** [POST /api/vibes/:vibeId/comments] *)
Definition post_vibe_comment (session : option Z) (vibeId : Z)
    (content : option string) (now : Z) : Db Response :=
  await user ← query (reqUser session);
  match user with
  | None => send 401 NoBody
  | Some user =>
      match content with
      | None => send 400 (JsonZodError "Invalid comment data")
      | Some content =>
          await comment ←
            createComment
              {| ic_vibeId := vibeId; ic_userId := User.id user;
                 ic_content := content |} now;
          await vibe ← query (getVibeById vibeId);
          match vibe with
          | Some vibe =>
              if decide (Vibe.userId vibe ≠ User.id user) then
                await _ ←
                  createNotification
                    {| in_userId := Vibe.userId vibe; in_type := "comment";
                       in_fromUserId := Some (User.id user);
                       in_entityId := Some vibeId;
                       in_content := Some content; in_isRead := false |} now;
                send 201 (JsonComment comment)
              else send 201 (JsonComment comment)
          | None => send 201 (JsonComment comment)
          end
      end
  end.

(** [POST /api/vibes/:vibeId/like] *)
Definition post_vibe_like (session : option Z) (vibeId : Z)
    (isLike : option bool) (now : Z) : Db Response :=
  await user ← query (reqUser session);
  match user with
  | None => send 401 NoBody
  | Some user =>
      match isLike with
      | None => send 400 (JsonZodError "Invalid like data")
      | Some isLike =>
          await like ←
            createOrUpdateLike
              {| il_vibeId := vibeId; il_userId := User.id user;
                 il_isLike := isLike |} now;
          await vibe ← query (getVibeById vibeId);
          match vibe with
          | Some vibe =>
              if decide (Vibe.userId vibe ≠ User.id user ∧ isLike = true)
              then
                await _ ←
                  createNotification
                    {| in_userId := Vibe.userId vibe; in_type := "like";
                       in_fromUserId := Some (User.id user);
                       in_entityId := Some vibeId;
                       in_content := None; in_isRead := false |} now;
                send 201 (JsonLike like)
              else send 201 (JsonLike like)
          | None => send 201 (JsonLike like)
          end
      end
  end.

(** [GET /api/users/:id] *)
Definition get_user_by_id (userId : Z) : Db Response :=
  await user ← query (getUser userId);
  match user with
  | None => send 404 (JsonMessage "User not found")
  | Some user =>
      (* const { password, ...userWithoutPassword } = user *)
      let userWithoutPassword := delete "password" (userObject user) in
      send 200 (JsonObject userWithoutPassword)
  end.

(** [POST /api/connections] *)
Definition post_connections (session : option Z) (connectedToId : option Z)
    (now : Z) : Db Response :=
  await user ← query (reqUser session);
  match user with
  | None => send 401 NoBody
  | Some user =>
      match connectedToId with
      | None => send 400 (JsonZodError "Invalid connection data")
      | Some connectedToId =>
          let connectionData :=
            {| icn_userId := User.id user;
               icn_connectedToId := connectedToId;
               icn_status := "pending" |} in
          await existingConnection ←
            query (getConnectionByUsers (icn_userId connectionData)
                                        (icn_connectedToId connectionData));
          match existingConnection with
          | Some _ => send 400 (JsonMessage "Connection already exists")
          | None =>
              await connection ← createConnection connectionData now;
              await _ ←
                createNotification
                  {| in_userId := icn_connectedToId connectionData;
                     in_type := "connection_request";
                     in_fromUserId := Some (User.id user);
                     in_entityId := Some (Connection.id connection);
                     in_content := None; in_isRead := false |} now;
              send 201 (JsonConnection (Some connection))
          end
      end
  end.

(** [PUT /api/connections/:id] *)
Definition put_connection (session : option Z) (connectionId : Z)
    (status : string) (now : Z) : Db Response :=
  await user ← query (reqUser session);
  match user with
  | None => send 401 NoBody
  | Some user =>
      if decide (status ∈ ["accepted"; "rejected"]) then
        await connection ← query (getConnectionById connectionId);
        match connection with
        | None => send 404 (JsonMessage "Connection not found")
        | Some connection =>
            if decide (Connection.connectedToId connection ≠ User.id user)
            then
              send 403 (JsonMessage "Not authorized to update this connection")
            else
              await updatedConnection ←
                updateConnectionStatus connectionId status;
              if decide (status = "accepted") then
                await _ ←
                  createNotification
                    {| in_userId := Connection.userId connection;
                       in_type := "connection_accepted";
                       in_fromUserId := Some (User.id user);
                       in_entityId := Some (Connection.id connection);
                       in_content := None; in_isRead := false |} now;
                send 200 (JsonConnection updatedConnection)
              else send 200 (JsonConnection updatedConnection)
        end
      else send 400 (JsonMessage "Invalid status")
  end.

(** [POST /api/messages] *)
Definition post_messages (session : option Z) (receiverId : option Z)
    (content : option string) (now : Z) : Db Response :=
  await user ← query (reqUser session);
  match user with
  | None => send 401 NoBody
  | Some user =>
      match receiverId, content with
      | Some receiverId, Some content =>
          let messageData :=
            {| im_senderId := User.id user; im_receiverId := receiverId;
               im_content := content; im_isRead := false |} in
          await message ← createMessage messageData now;
          await _ ←
            createNotification
              {| in_userId := im_receiverId messageData;
                 in_type := "message";
                 in_fromUserId := Some (User.id user);
                 in_entityId := Some (Message.id message);
                 in_content :=
                   Some (String.substring 0 50 (im_content messageData));
                 in_isRead := false |} now;
          send 201 (JsonChatMessage message)
      | _, _ => send 400 (JsonZodError "Invalid message data")
      end
  end.

Section ProgressionRoutes.

Variable levelForXp : Z → Z.


End ProgressionRoutes.

(** ** Sequences of requests *)

Inductive Request :=
  | PostVibeComment (session : option Z) (vibeId : Z)
                    (content : option string)
  | PostVibeLike (session : option Z) (vibeId : Z) (isLike : option bool)
  | PostConnections (session : option Z) (connectedToId : option Z)
  | PutConnection (session : option Z) (connectionId : Z) (status : string)
  | PostMessages (session : option Z) (receiverId : option Z)
                 (content : option string).

Definition handle (r : Request) (now : Z) : Db Response :=
  match r with
  | PostVibeComment s v c => post_vibe_comment s v c now
  | PostVibeLike s v l => post_vibe_like s v l now
  | PostConnections s c => post_connections s c now
  | PutConnection s i st => put_connection s i st now
  | PostMessages s r c => post_messages s r c now
  end.

(** The store after serving the requests in order, each at its own time. *)
Definition serve (rs : list (Request * Z)) (db : DB) : DB :=
  foldl (λ db r, (handle r.1 r.2 db).2) db rs.

(** ** Properties of the store *)

(** The Reaction rows of a (user, content) pair. *)
Definition likesOf (userId vibeId : Z) (db : DB) : list Like.t :=
  filter (λ l, Like.userId l = userId ∧ Like.vibeId l = vibeId)
         (rows (likes db)).

Definition oneLikePerUserAndVibe (db : DB) : Prop :=
  ∀ userId vibeId, (length (likesOf userId vibeId db) ≤ 1)%nat.

(** A sequence of [createOrUpdateLike] calls, each at its own time; a call
    that throws leaves the store as it is. *)
Definition setReactions (calls : list (InsertLike * Z)) (db : DB) : DB :=
  foldl (λ db c, (createOrUpdateLike c.1 c.2 db).2) db calls.

(** The Connection rows of an ordered (requester, recipient) pair. *)
Definition connectionsOf (userId connectedToId : Z) (db : DB)
    : list Connection.t :=
  filter (λ c, Connection.userId c = userId
               ∧ Connection.connectedToId c = connectedToId)
         (rows (connections db)).

Definition oneConnectionPerPair (db : DB) : Prop :=
  ∀ a b, (length (connectionsOf a b db) ≤ 1)%nat.

(** A notification whose actor is its recipient. *)
Definition selfNotification (n : Notification.t) : Prop :=
  Notification.fromUserId n = Some (Notification.userId n).

Definition noSelfNotification (db : DB) : Prop :=
  ∀ n, n ∈ rows (notifications db) → ¬ selfNotification n.

(** A request that did not succeed: an error status or [next(error)]. *)
Definition failed (r : Result Response) : Prop :=
  match r with
  | Ok res => 400 ≤ statusCode res
  | Throw _ => True
  end.

(** ** Sample stores *)

Definition alice : User.t :=
  User.mk 1 "alice" "5f4dcc3b.a1b2" (Some "Alice") None None 1.
Definition bob : User.t :=
  User.mk 2 "bob" "9e107d9d.c3d4" None (Some "builder") None 2.
Definition carol : User.t :=
  User.mk 3 "carol" "e4d909c2.e5f6" None None None 3.

Definition usersOnly : DB :=
  mkDB (mkTable [alice; bob; carol] 4) emptyTable emptyTable emptyTable
       emptyTable emptyTable emptyTable emptyTable emptyTable emptyTable.

(** Content A (3 likes, created at 10), B (3 likes, at 5), C (2 likes,
    at 20). *)
Definition vibeA : Vibe.t := Vibe.mk 1 1 (Some "A") None None (Some []) 10.
Definition vibeB : Vibe.t := Vibe.mk 2 2 (Some "B") None None (Some []) 5.
Definition vibeC : Vibe.t := Vibe.mk 3 3 (Some "C") None None (Some []) 20.

Definition trendingStore : DB :=
  mkDB (mkTable [alice; bob; carol] 4)
       (mkTable [vibeA; vibeB; vibeC] 4)
       emptyTable
       (mkTable [ Like.mk 1 1 1 true 21; Like.mk 2 1 2 true 22;
                  Like.mk 3 1 3 true 23; Like.mk 4 2 1 true 24;
                  Like.mk 5 2 2 true 25; Like.mk 6 2 3 true 26;
                  Like.mk 7 3 1 true 27; Like.mk 8 3 2 true 28 ] 9)
       emptyTable emptyTable emptyTable emptyTable emptyTable emptyTable.

(** One vibe tagged [Web3], with a capital. *)
Definition vibeWeb3 : Vibe.t :=
  Vibe.mk 1 1 (Some "gm") None None (Some ["Web3"; "defi"]) 10.

Definition taggedStore : DB :=
  mkDB (mkTable [alice; bob; carol] 4) (mkTable [vibeWeb3] 2)
       emptyTable emptyTable emptyTable emptyTable emptyTable emptyTable
       emptyTable emptyTable.

(** Alice asked Bob to connect and Bob accepted. *)
Definition acceptedConnection : Connection.t :=
  Connection.mk 1 1 2 "accepted" 30.

Definition connectedStore : DB :=
  mkDB (mkTable [alice; bob; carol] 4) emptyTable emptyTable emptyTable
       (mkTable [acceptedConnection] 2) emptyTable emptyTable emptyTable
       emptyTable emptyTable.

(** Alice's request to Bob is still pending. *)
Definition pendingConnection : Connection.t :=
  Connection.mk 1 1 2 "pending" 30.

Definition pendingStore : DB :=
  mkDB (mkTable [alice; bob; carol] 4) emptyTable emptyTable emptyTable
       (mkTable [pendingConnection] 2) emptyTable emptyTable emptyTable
       emptyTable emptyTable.




(** A computation keeps a property of the store, whatever it returns. *)
Definition preserves {A} (Φ : DB → Prop) (m : Db A) : Prop :=
  ∀ db, Φ db → Φ (m db).2.

(** ** The claims that the handlers do not meet, as they are worded *)

(** "respondToConnection on a connection that is not pending fails with
    ConflictError and the stored status is not changed". *)
Definition respondRejectsResolved (session : option Z) (connectionId : Z)
    (status : string) (now : Z) (db : DB) : Prop :=
  ∀ c, getConnectionById connectionId db = Some c →
       Connection.status c ≠ "pending" →
       let '(res, db') := put_connection session connectionId status now db in
       failed res
       ∧ Connection.status <$> getConnectionById connectionId db'
         = Some (Connection.status c).

(** "requestConnection(u, u) fails with ValidationError and no Connection
    row is created". *)
Definition selfRequestRejected (u : Z) (now : Z) (db : DB) : Prop :=
  let '(res, db') := post_connections (Some u) (Some u) now db in
  failed res ∧ connections db' = connections db.

(** "computeTrending(n) returns the ContentItems sorted by count of
    Reactions with isLike = true, descending, ties broken by createdAt
    descending, truncated to the top n". *)
Definition rankedBefore (db : DB) (a b : Vibe.t) : Prop :=
  (likesCount (Vibe.id b) db < likesCount (Vibe.id a) db)%nat
  ∨ (likesCount (Vibe.id b) db = likesCount (Vibe.id a) db
     ∧ Vibe.createdAt b ≤ Vibe.createdAt a).

#[global] Instance rankedBefore_dec db a b : Decision (rankedBefore db a b).
Proof. unfold rankedBefore. apply _. Defined.

Definition computeTrending (limit : nat) (db : DB) : list Vibe.t :=
  take limit (merge_sort (rankedBefore db) (rows (vibes db))).

(** "queryByTag(t) returns exactly the ContentItems whose tag set contains
    t under exact, case-insensitive string comparison". *)
Definition lowerAscii (c : Ascii.ascii) : Ascii.ascii :=
  let n := Ascii.nat_of_ascii c in
  if decide (65 ≤ n ≤ 90)%nat then Ascii.ascii_of_nat (n + 32) else c.

Fixpoint toLowerCase (s : string) : string :=
  match s with
  | EmptyString => EmptyString
  | String c s => String (lowerAscii c) (toLowerCase s)
  end.

Definition hasHashtagIgnoringCase (hashtag : string) (v : Vibe.t) : Prop :=
  match Vibe.hashtags v with
  | Some tags => toLowerCase hashtag ∈ toLowerCase <$> tags
  | None => False
  end.

Definition queryByTagIgnoresCase (hashtag : string) (db : DB) : Prop :=
  ∀ v, v ∈ getVibesByHashtag hashtag db
       ↔ v ∈ rows (vibes db) ∧ hasHashtagIgnoringCase hashtag v.

(** The two stages of [getTrendingVibes]: the grouped like counts, and the
    ids that the first query keeps. *)
Definition likeCounts (db : DB) : list (Z * nat) :=
  (λ v, (Vibe.id v, likesCount (Vibe.id v) db)) <$> rows (vibes db).

Definition topIds (limit : nat) (db : DB) : list Z :=
  (take limit (merge_sort moreLikesFirst (likeCounts db))).*1.




(** ** The rest of the storage layer *)

Definition with_vibes (t : Table Vibe.t) (db : DB) : DB :=
  mkDB (users db) t (comments db) (likes db) (connections db)
       (notifications db) (messages db) (quests db)
       (userQuestProgress db) (userLevel db).

(** [db.delete(t).where(P)] *)
Definition deleteRows {A} (P : A → Prop) `{!∀ x, Decision (P x)}
    (t : Table A) : Table A :=
  mkTable (filter (λ r, ¬ P r) (rows t)) (nextId t).

(** The ids of a table come from its sequence: all are below the next
    value. *)
Definition freshIds {A} (id : A → Z) (t : Table A) : Prop :=
  ∀ r, r ∈ rows t → id r < nextId t.

Record InsertVibe :=
  { iv_userId : Z; iv_content : option string; iv_mediaUrl : option string;
    iv_mediaType : option string; iv_hashtags : option (list string) }.

Definition createVibe (v : InsertVibe) (now : Z) : Db Vibe.t :=
  λ db,
    if decide (userExists (iv_userId v) db) then
      let '(createdVibe, t) :=
        insertRow (λ i, Vibe.mk i (iv_userId v) (iv_content v)
                          (iv_mediaUrl v) (iv_mediaType v) (iv_hashtags v)
                          now) (vibes db) in
      (Ok createdVibe, with_vibes t db)
    else (Throw (ForeignKeyViolation "vibes" "user_id"), db).

(** [limit] and [offset] are row counts; PostgreSQL rejects negative
    ones. *)
Definition getAllVibes (limit offset : nat) (db : DB) : list Vibe.t :=
  take limit (drop offset (merge_sort newerFirst (rows (vibes db)))).

Definition getVibesByUserId (userId : Z) (db : DB) : list Vibe.t :=
  merge_sort newerFirst
    (filter (λ v, Vibe.userId v = userId) (rows (vibes db))).

Definition deleteVibe (id : Z) : Db () :=
  λ db,
    (* First, delete all related comments and likes *)
    let db1 :=
      with_comments (deleteRows (λ c, Comment.vibeId c = id) (comments db))
                    db in
    let db2 :=
      with_likes (deleteRows (λ l, Like.vibeId l = id) (likes db1)) db1 in
    (* Then delete the vibe itself *)
    (Ok (), with_vibes (deleteRows (λ v, Vibe.id v = id) (vibes db2)) db2).

Definition olderCommentFirst (a b : Comment.t) : Prop :=
  Comment.createdAt a ≤ Comment.createdAt b.

#[global] Instance olderCommentFirst_dec a b :
  Decision (olderCommentFirst a b).
Proof. unfold olderCommentFirst. apply _. Defined.

Definition getCommentsByVibeId (vibeId : Z) (db : DB) : list Comment.t :=
  merge_sort olderCommentFirst
    (filter (λ c, Comment.vibeId c = vibeId) (rows (comments db))).

(** No [ORDER BY]: the rows come in the order of the table. *)
Definition getLikesByVibeId (vibeId : Z) (db : DB) : list Like.t :=
  filter (λ l, Like.vibeId l = vibeId) (rows (likes db)).

(** [DELETE /api/vibes/:id] *)
Definition delete_vibe (session : option Z) (vibeId : Z) : Db Response :=
  await user ← query (reqUser session);
  match user with
  | None => send 401 NoBody
  | Some user =>
      await vibe ← query (getVibeById vibeId);
      match vibe with
      | None => send 404 (JsonMessage "Vibe not found")
      | Some vibe =>
          (* Ensure the user is the owner of the vibe *)
          if decide (Vibe.userId vibe ≠ User.id user) then
            send 403 (JsonMessage "Not authorized to delete this vibe")
          else
            await _ ← deleteVibe vibeId;
            send 200 (JsonMessage "Vibe deleted successfully")
      end
  end.

(** Whether the user currently likes the vibe. *)
Definition liked (userId vibeId : Z) (db : DB) : bool :=
  match getLikeByUserAndVibe userId vibeId db with
  | Some l => Like.isLike l
  | None => false
  end.

(** ** The read routes *)

(** Answers of the routes that send rows: [res.json(value)] (status 200)
    or [res.sendStatus(code)]. *)
Inductive Reply (A : Type) :=
  | ReplyJson (code : Z) (value : A)
  | ReplyStatus (code : Z).
Arguments ReplyJson {A} _ _.
Arguments ReplyStatus {A} _.

(** [getUserConnections] and [getUserNotifications] call [.where] a second
    time on a built query.  Whether the second condition is conjoined with
    the first or replaces it is decided by the query builder, not by this
    repository, so the model takes it as a parameter. *)
Inductive WhereMode := WhereConjoins | WhereReplaces.

Definition newerConnectionFirst (a b : Connection.t) : Prop :=
  Connection.createdAt b ≤ Connection.createdAt a.

#[global] Instance newerConnectionFirst_dec a b :
  Decision (newerConnectionFirst a b).
Proof. unfold newerConnectionFirst. apply _. Defined.

Definition isParty (userId : Z) (c : Connection.t) : Prop :=
  Connection.userId c = userId ∨ Connection.connectedToId c = userId.

#[global] Instance isParty_dec userId c : Decision (isParty userId c).
Proof. unfold isParty. apply _. Defined.

(** [status] is [undefined] ([None]) or a string; [if (status)] holds for
    a non-empty string. *)
Definition getUserConnections (mode : WhereMode) (userId : Z)
    (status : option string) (db : DB) : list Connection.t :=
  let all := rows (connections db) in
  let query :=
    match status with
    | Some s =>
        if decide (s = "") then filter (isParty userId) all
        else
          match mode with
          | WhereConjoins =>
              filter (λ c, isParty userId c ∧ Connection.status c = s) all
          | WhereReplaces => filter (λ c, Connection.status c = s) all
          end
    | None => filter (isParty userId) all
    end in
  merge_sort newerConnectionFirst query.

(** [GET /api/connections] *)
Definition get_connections (mode : WhereMode) (session : option Z)
    (status : option string) : Db (Reply (list Connection.t)) :=
  await user ← query (reqUser session);
  match user with
  | None => ret (ReplyStatus 401)
  | Some user =>
      await connections ←
        query (getUserConnections mode (User.id user) status);
      ret (ReplyJson 200 connections)
  end.


(** *** Notifications *)

Definition markRead (n : Notification.t) : Notification.t :=
  Notification.mk (Notification.id n) (Notification.userId n)
                  (Notification.type n) (Notification.fromUserId n)
                  (Notification.entityId n) (Notification.content n) true
                  (Notification.createdAt n).

Definition newerNotificationFirst (a b : Notification.t) : Prop :=
  Notification.createdAt b ≤ Notification.createdAt a.

#[global] Instance newerNotificationFirst_dec a b :
  Decision (newerNotificationFirst a b).
Proof. unfold newerNotificationFirst. apply _. Defined.

Definition getUserNotifications (mode : WhereMode) (userId : Z)
    (isRead : option bool) (db : DB) : list Notification.t :=
  let all := rows (notifications db) in
  let query :=
    match isRead with
    | Some r =>
        match mode with
        | WhereConjoins =>
            filter (λ n, Notification.userId n = userId
                         ∧ Notification.isRead n = r) all
        | WhereReplaces => filter (λ n, Notification.isRead n = r) all
        end
    | None => filter (λ n, Notification.userId n = userId) all
    end in
  let results := merge_sort newerNotificationFirst query in
  (* Double check filter *)
  filter (λ n, Notification.userId n = userId) results.

Definition markNotificationAsRead (id : Z) : Db (option Notification.t) :=
  λ db,
    let '(updated, t) :=
      updateRows (λ n, Notification.id n = id) markRead (notifications db)
    in
    (Ok (head updated), with_notifications t db).

(** [req.query.isRead === "true" ? true : req.query.isRead === "false" ?
    false : undefined] *)
Definition parseIsRead (q : option string) : option bool :=
  if decide (q = Some "true") then Some true
  else if decide (q = Some "false") then Some false
  else None.

(** [GET /api/notifications] *)
Definition get_notifications (mode : WhereMode) (session : option Z)
    (isRead : option string) : Db (Reply (list Notification.t)) :=
  await user ← query (reqUser session);
  match user with
  | None => ret (ReplyStatus 401)
  | Some user =>
      let isRead := parseIsRead isRead in
      await notifications ←
        query (getUserNotifications mode (User.id user) isRead);
      (* Additional security check *)
      let filteredNotifications :=
        filter (λ n, Notification.userId n = User.id user) notifications in
      ret (ReplyJson 200 filteredNotifications)
  end.

(** [PUT /api/notifications/:id/read] *)
Definition put_notification_read (session : option Z) (notificationId : Z)
    : Db (Reply (option Notification.t)) :=
  await user ← query (reqUser session);
  match user with
  | None => ret (ReplyStatus 401)
  | Some user =>
      await notification ← markNotificationAsRead notificationId;
      ret (ReplyJson 200 notification)
  end.

(** A store with two notifications for Bob, one of them read, and one
    for Alice. *)
Definition inboxStore : DB :=
  mkDB (mkTable [alice; bob; carol] 4) emptyTable emptyTable emptyTable
       emptyTable
       (mkTable
          [ Notification.mk 1 2 "message" (Some 1) (Some 1) (Some "gm")
              true 10;
            Notification.mk 2 1 "message" (Some 2) (Some 2) (Some "gm gm")
              false 11;
            Notification.mk 3 2 "connection_request" (Some 3) (Some 1) None
              false 12 ] 4)
       emptyTable emptyTable emptyTable emptyTable.

(** *** Messages *)

Definition olderMessageFirst (a b : Message.t) : Prop :=
  Message.createdAt a ≤ Message.createdAt b.

#[global] Instance olderMessageFirst_dec a b :
  Decision (olderMessageFirst a b).
Proof. unfold olderMessageFirst. apply _. Defined.

Definition isBetween (senderId receiverId : Z) (m : Message.t) : Prop :=
  (Message.senderId m = senderId ∧ Message.receiverId m = receiverId)
  ∨ (Message.senderId m = receiverId ∧ Message.receiverId m = senderId).

#[global] Instance isBetween_dec s r m : Decision (isBetween s r m).
Proof. unfold isBetween. apply _. Defined.

Definition getMessagesBetweenUsers (senderId receiverId : Z) (db : DB)
    : list Message.t :=
  merge_sort olderMessageFirst
    (filter (isBetween senderId receiverId) (rows (messages db))).


(** *** Users to connect with *)

(** [if (excludeUserId)] holds for a number other than 0.  No [ORDER BY]:
    the rows come in the order of the table. *)
Definition getAllUsers (excludeUserId : option Z) (db : DB) : list User.t :=
  match excludeUserId with
  | Some id =>
      if decide (id = 0) then rows (users db)
      else filter (λ u, User.id u ≠ id) (rows (users db))
  | None => rows (users db)
  end.

(** [l.slice(0, limit)]: a negative [limit] counts from the end. *)
Definition sliceTo {A} (limit : Z) (l : list A) : list A :=
  if decide (limit < 0) then take (length l - Z.to_nat (- limit)) l
  else take (Z.to_nat limit) l.

(** [s.includes(search)] *)
Definition includes (s search : string) : Prop :=
  is_Some (String.index 0 search s).

#[global] Instance includes_dec s search : Decision (includes s search).
Proof. unfold includes. apply _. Defined.

Section UserSearch.

(** [String.prototype.toLowerCase]. *)
Variable lowerCase : string → string.

Definition matchesSearch (search : string) (u : User.t) : Prop :=
  includes (lowerCase (User.username u)) search
  ∨ match User.displayName u with
    | Some d => d ≠ "" ∧ includes (lowerCase d) search
    | None => False
    end.

#[global] Instance matchesSearch_dec search u :
  Decision (matchesSearch search u).
Proof.
  unfold matchesSearch. destruct (User.displayName u); apply _.
Defined.

(** [GET /api/users/connect]; [limit] is [parseInt(req.query.limit)],
    [None] when it is not a number. *)
Definition get_users_connect (session : option Z) (limit : option Z)
    (search : option string) : Db (Reply (list User.t)) :=
  await user ← query (reqUser session);
  match user with
  | None => ret (ReplyStatus 401)
  | Some user =>
      let limit :=
        match limit with
        | Some n => if decide (n = 0) then 50 else n
        | None => 50
        end in
      let search := lowerCase (default "" search) in
      let currentUserId := User.id user in
      (* Get all users except current user *)
      await allUsers ← query (getAllUsers (Some currentUserId));
      (* Filter users based on search query *)
      let filteredUsers :=
        if decide (search = "") then allUsers
        else filter (matchesSearch search) allUsers in
      ret (ReplyJson 200 (sliceTo limit filteredUsers))
  end.

End UserSearch.

(** Alice wrote to Bob and Bob answered; Carol wrote to Alice. *)
Definition chatStore : DB :=
  mkDB (mkTable [alice; bob; carol] 4) emptyTable emptyTable emptyTable
       emptyTable emptyTable
       (mkTable [ Message.mk 1 1 2 "gm" false 10;
                  Message.mk 2 2 1 "gm gm" false 11;
                  Message.mk 3 3 1 "wen" false 12 ] 4)
       emptyTable emptyTable emptyTable.

(** *** Primary keys *)

(** The ids of a table are distinct and below the next value of its
    sequence. *)
Definition wellSequenced {A} (id : A → Z) (t : Table A) : Prop :=
  NoDup (id <$> rows t) ∧ freshIds id t.

Definition storeSequenced (db : DB) : Prop :=
  wellSequenced Comment.id (comments db)
  ∧ wellSequenced Like.id (likes db)
  ∧ wellSequenced Connection.id (connections db)
  ∧ wellSequenced Notification.id (notifications db)
  ∧ wellSequenced Message.id (messages db).

(** ** The current user ([server/auth.ts]) *)







(** * Proofs *)

(** ** Selections and in-place updates of rows *)

Section Rows.
Context {A : Type}.
Implicit Types (l : list A) (f : A → A).

Lemma head_filter_Some (P : A → Prop) `{!∀ x, Decision (P x)} l x :
  head (filter P l) = Some x → P x ∧ x ∈ l.
Proof.
  intros Hh.
  assert (x ∈ filter P l) as Hin.
  { destruct (filter P l); simplify_eq/=. left. }
  apply list_elem_of_filter in Hin. tauto.
Qed.

Lemma head_filter_None (P : A → Prop) `{!∀ x, Decision (P x)} l :
  head (filter P l) = None → filter P l = [].
Proof. by destruct (filter P l). Qed.

(** Rows selected by [Q] after an update that keeps [Q]. *)
Lemma filter_update (P Q : A → Prop)
    `{!∀ x, Decision (P x)} `{!∀ x, Decision (Q x)} f l :
  (∀ r, Q (f r) ↔ Q r) →
  filter Q ((λ r, if decide (P r) then f r else r) <$> l)
  = (λ r, if decide (P r) then f r else r) <$> filter Q l.
Proof.
  intros Hkeep. induction l as [|r l IH]; [done|].
  rewrite fmap_cons, !filter_cons.
  assert (Q (if decide (P r) then f r else r) ↔ Q r) as HQ
    by (case_decide; [apply Hkeep | done]).
  destruct (decide (Q r)) as [Hr|Hr].
  - rewrite decide_True by (by apply HQ). by rewrite fmap_cons, IH.
  - rewrite decide_False by (by rewrite HQ). done.
Qed.

Lemma filter_update_same (P : A → Prop) `{!∀ x, Decision (P x)} f l :
  (∀ r, P (f r) ↔ P r) →
  filter P ((λ r, if decide (P r) then f r else r) <$> l)
  = f <$> filter P l.
Proof.
  intros Hkeep. rewrite filter_update by done.
  apply list_fmap_ext. intros i r Hr.
  apply list_elem_of_lookup_2, list_elem_of_filter in Hr.
  by rewrite decide_True by tauto.
Qed.

Lemma filter_snoc (P : A → Prop) `{!∀ x, Decision (P x)} l x :
  filter P (l ++ [x]) = filter P l ++ (if decide (P x) then [x] else []).
Proof. rewrite filter_app. f_equal. Qed.

End Rows.

(** ** What the storage calls leave alone *)

Lemma getUser_Some id db user :
  getUser id db = Some user → User.id user = id ∧ userExists id db.
Proof.
  intros [Hid Hin]%head_filter_Some. split; [done|].
  unfold userExists. subst id. by apply list_elem_of_fmap_2.
Qed.

Lemma reqUser_authenticated u db :
  is_Some (getUser u db) →
  ∃ user, reqUser (Some u) db = Some user ∧ User.id user = u.
Proof.
  intros [user Hu]. exists user. split; [done|].
  by apply getUser_Some in Hu as [? _].
Qed.

Lemma createNotification_frame n now db :
  let db' := (createNotification n now db).2 in
  users db' = users db ∧ vibes db' = vibes db ∧ likes db' = likes db
  ∧ connections db' = connections db.
Proof.
  unfold createNotification. repeat case_decide; simpl; done.
Qed.

Lemma createComment_frame c now db :
  let db' := (createComment c now db).2 in
  users db' = users db ∧ vibes db' = vibes db ∧ likes db' = likes db
  ∧ connections db' = connections db
  ∧ notifications db' = notifications db.
Proof.
  unfold createComment. repeat case_decide; simpl; done.
Qed.

Lemma createMessage_frame m now db :
  let db' := (createMessage m now db).2 in
  users db' = users db ∧ vibes db' = vibes db ∧ likes db' = likes db
  ∧ connections db' = connections db
  ∧ notifications db' = notifications db.
Proof.
  unfold createMessage. repeat case_decide; simpl; done.
Qed.

Lemma createOrUpdateLike_frame like now db :
  let db' := (createOrUpdateLike like now db).2 in
  users db' = users db ∧ vibes db' = vibes db
  ∧ connections db' = connections db
  ∧ notifications db' = notifications db.
Proof.
  unfold createOrUpdateLike.
  destruct (getLikeByUserAndVibe _ _ _); simpl; [done|].
  repeat case_decide; simpl; done.
Qed.

Lemma createConnection_frame c now db :
  let db' := (createConnection c now db).2 in
  users db' = users db ∧ vibes db' = vibes db ∧ likes db' = likes db
  ∧ notifications db' = notifications db.
Proof.
  unfold createConnection. repeat case_decide; simpl; done.
Qed.

Lemma updateConnectionStatus_frame id status db :
  let db' := (updateConnectionStatus id status db).2 in
  users db' = users db ∧ vibes db' = vibes db ∧ likes db' = likes db
  ∧ notifications db' = notifications db.
Proof. done. Qed.

(** ** Reactions *)

Lemma likesOf_update userId vibeId (P : Like.t → Prop)
    `{!∀ x, Decision (P x)} b db t :
  t = (updateRows P (Like.set_isLike b) (likes db)).2 →
  likesOf userId vibeId (with_likes t db)
  = (λ r, if decide (P r) then Like.set_isLike b r else r)
      <$> likesOf userId vibeId db.
Proof.
  intros ->. unfold likesOf. simpl.
  by rewrite filter_update by (by intros []).
Qed.

Lemma createOrUpdateLike_unique like now db :
  oneLikePerUserAndVibe db →
  oneLikePerUserAndVibe (createOrUpdateLike like now db).2.
Proof.
  intros Hinv u c. unfold createOrUpdateLike.
  destruct (getLikeByUserAndVibe _ _ _) as [existing|] eqn:Hget; simpl.
  - erewrite likesOf_update by done. rewrite length_fmap. apply Hinv.
  - repeat case_decide; simpl; try apply Hinv.
    unfold likesOf. simpl. rewrite filter_snoc, length_app.
    case_decide as Hnew; simpl in *.
    + destruct Hnew as [<- <-].
      apply head_filter_None in Hget. rewrite Hget. simpl. lia.
    + specialize (Hinv u c). unfold likesOf in Hinv. lia.
Qed.

Lemma createOrUpdateLike_sets u c b now db :
  oneLikePerUserAndVibe db → userExists u db → vibeExists c db →
  ∃ l, likesOf u c
         (createOrUpdateLike
            {| il_vibeId := c; il_userId := u; il_isLike := b |} now db).2
       = [l]
       ∧ Like.isLike l = b.
Proof.
  intros Hinv Hu Hc. unfold createOrUpdateLike. simpl.
  destruct (getLikeByUserAndVibe u c db) as [existing|] eqn:Hget; simpl.
  - erewrite likesOf_update by done.
    specialize (Hinv u c). unfold getLikeByUserAndVibe in Hget.
    unfold likesOf in *.
    destruct (filter _ (rows (likes db))) as [|x [|y rest]];
      simplify_eq/=; [|lia].
    rewrite decide_True by done. by eexists.
  - rewrite !decide_True by done. simpl.
    unfold likesOf. simpl. rewrite filter_snoc.
    apply head_filter_None in Hget. rewrite Hget. simpl.
    rewrite decide_True by done. by eexists.
Qed.

Lemma setReactions_unique calls db :
  oneLikePerUserAndVibe db → oneLikePerUserAndVibe (setReactions calls db).
Proof.
  revert db. induction calls as [|call calls IH]; intros db Hinv; [done|].
  apply IH. by apply createOrUpdateLike_unique.
Qed.

(** C4.  From a store with at most one Reaction row per (content, user),
    any sequence of setReaction calls leaves at most one row per pair; and
    for a user [u] and a content item [c] of the store, setReaction
    (u, c, true), then (u, c, false), then (u, c, true) leaves exactly one
    row for (u, c), with isLike true. *)
Theorem setReaction_one_row_per_pair (db : DB) :
  oneLikePerUserAndVibe db →
  (∀ calls, oneLikePerUserAndVibe (setReactions calls db))
  ∧ (∀ u c t1 t2 t3,
       userExists u db → vibeExists c db →
       ∃ l, likesOf u c
              (setReactions
                 [ ({| il_vibeId := c; il_userId := u; il_isLike := true |},
                    t1);
                   ({| il_vibeId := c; il_userId := u; il_isLike := false |},
                    t2);
                   ({| il_vibeId := c; il_userId := u; il_isLike := true |},
                    t3) ] db)
            = [l]
            ∧ Like.isLike l = true).
Proof.
  intros Hinv. split; [intros; by apply setReactions_unique|].
  intros u c t1 t2 t3 Hu Hc. simpl.
  set (like b := {| il_vibeId := c; il_userId := u; il_isLike := b |}).
  set (db1 := (createOrUpdateLike (like true) t1 db).2).
  set (db2 := (createOrUpdateLike (like false) t2 db1).2).
  assert (∀ l t d, userExists u d → vibeExists c d →
            userExists u (createOrUpdateLike l t d).2
            ∧ vibeExists c (createOrUpdateLike l t d).2) as Hkeep.
  { intros l t d ??.
    destruct (createOrUpdateLike_frame l t d) as (Hus & Hvs & _).
    unfold userExists, vibeExists. by rewrite Hus, Hvs. }
  destruct (Hkeep (like true) t1 db) as [Hu1 Hc1]; [done..|].
  destruct (Hkeep (like false) t2 db1) as [Hu2 Hc2]; [done..|].
  apply createOrUpdateLike_sets; [|done..].
  by do 2 apply createOrUpdateLike_unique.
Qed.

Lemma usersOnly_oneLike : oneLikePerUserAndVibe usersOnly.
Proof. intros u c. simpl. lia. Qed.

Lemma trendingStore_oneLike : oneLikePerUserAndVibe trendingStore.
Proof.
  intros u c. unfold likesOf. simpl.
  rewrite !filter_cons, filter_nil. simpl.
  repeat case_decide; simpl; lia.
Qed.

Lemma setReaction_one_row_per_pair_witness :
  ∃ l, likesOf 3 3
         (setReactions
            [ ({| il_vibeId := 3; il_userId := 3; il_isLike := true |}, 31);
              ({| il_vibeId := 3; il_userId := 3; il_isLike := false |}, 32);
              ({| il_vibeId := 3; il_userId := 3; il_isLike := true |}, 33) ]
            trendingStore)
       = [l]
       ∧ Like.isLike l = true.
Proof.
  apply (setReaction_one_row_per_pair trendingStore trendingStore_oneLike).
  - unfold userExists. simpl. set_solver.
  - unfold vibeExists. simpl. set_solver.
Defined.

(** ** The public user record *)

(** C10.  For a stored user, GET /api/users/:id answers 200 with the user
    object without its [password] key: the key is absent, every other
    field is the stored one, and the answer is the same whatever the stored
    password is. *)
Theorem get_user_by_id_omits_password (db : DB) (userId : Z) (user : User.t) :
  getUser userId db = Some user →
  ∃ o, get_user_by_id userId db = (Ok (mkResponse 200 (JsonObject o)), db)
       ∧ o !! "password" = None
       ∧ (∀ k, k ≠ "password" → o !! k = userObject user !! k)
       ∧ (∀ p, delete "password" (userObject (User.set_password p user)) = o).
Proof.
  intros Hget. eexists. unfold get_user_by_id, bind, query, send, ret.
  rewrite Hget. split; [done|]. split; [apply lookup_delete_eq|].
  split; [intros k Hk; by apply lookup_delete_ne|].
  intros p. apply map_eq. intros k. rewrite !lookup_delete.
  case_decide; [done|]. unfold userObject. simpl.
  rewrite !lookup_insert. repeat case_decide; congruence.
Qed.

Lemma get_user_by_id_omits_password_witness :
  ∃ o, get_user_by_id 1 usersOnly
       = (Ok (mkResponse 200 (JsonObject o)), usersOnly)
       ∧ o !! "password" = None
       ∧ (∀ k, k ≠ "password" → o !! k = userObject alice !! k)
       ∧ (∀ p, delete "password" (userObject (User.set_password p alice)) = o).
Proof. apply (get_user_by_id_omits_password usersOnly 1 alice). reflexivity. Defined.

(** ** Connections *)

Lemma connectionsOf_nonempty a b c db :
  getConnectionByUsers a b db = Some c →
  oneConnectionPerPair db → connectionsOf a b db = [c].
Proof.
  intros Hget Hinv. specialize (Hinv a b).
  unfold getConnectionByUsers in Hget. unfold connectionsOf in *.
  destruct (filter _ (rows (connections db))) as [|x [|y rest]];
    simplify_eq/=; [done|lia].
Qed.

Lemma createConnection_unique c now db :
  getConnectionByUsers (icn_userId c) (icn_connectedToId c) db = None →
  oneConnectionPerPair db →
  oneConnectionPerPair (createConnection c now db).2.
Proof.
  intros Hget Hinv a b. unfold createConnection.
  repeat case_decide; simpl; try apply Hinv.
  unfold connectionsOf. simpl. rewrite filter_snoc, length_app.
  case_decide as Hnew; simpl in *.
  - destruct Hnew as [<- <-].
    apply head_filter_None in Hget. rewrite Hget. simpl. lia.
  - specialize (Hinv a b). unfold connectionsOf in Hinv. lia.
Qed.

Lemma updateConnectionStatus_unique id status db :
  oneConnectionPerPair db →
  oneConnectionPerPair (updateConnectionStatus id status db).2.
Proof.
  intros Hinv a b. unfold connectionsOf. simpl.
  rewrite filter_update by (by intros []). rewrite length_fmap. apply Hinv.
Qed.

Lemma getConnectionById_updated id status c db :
  getConnectionById id db = Some c →
  (updateConnectionStatus id status db).1
  = Ok (Some (Connection.set_status status c))
  ∧ getConnectionById id (updateConnectionStatus id status db).2
    = Some (Connection.set_status status c).
Proof.
  unfold getConnectionById, updateConnectionStatus. simpl. intros Hget.
  rewrite filter_update_same by (by intros []).
  destruct (filter _ (rows (connections db))); simplify_eq/=. done.
Qed.

(** C7.  In a store with at most one Connection per ordered pair, if a
    Connection for (a, b) exists, whatever its status, a further request
    of the authenticated user [a] to connect to [b] is answered 400
    "Connection already exists", the store is unchanged, and exactly one
    Connection row exists for (a, b) afterwards. *)
Theorem duplicate_request_conflict (db : DB) (a b now : Z)
    (c : Connection.t) :
  oneConnectionPerPair db →
  is_Some (getUser a db) →
  getConnectionByUsers a b db = Some c →
  post_connections (Some a) (Some b) now db
  = (Ok (mkResponse 400 (JsonMessage "Connection already exists")), db)
  ∧ length (connectionsOf a b
              (post_connections (Some a) (Some b) now db).2) = 1%nat.
Proof.
  intros Hinv (user & Hreq & Hid)%reqUser_authenticated Hget.
  assert (post_connections (Some a) (Some b) now db
          = (Ok (mkResponse 400 (JsonMessage "Connection already exists")),
             db)) as Hres.
  { unfold post_connections, bind, query, send, ret.
    rewrite Hreq. simpl. rewrite Hid, Hget. done. }
  rewrite Hres. split; [done|]. simpl.
  by erewrite connectionsOf_nonempty.
Qed.

Lemma pendingStore_oneConnection : oneConnectionPerPair pendingStore.
Proof.
  intros a b. unfold connectionsOf. simpl.
  rewrite !filter_cons, filter_nil. case_decide; simpl; lia.
Qed.

Lemma duplicate_request_conflict_witness :
  post_connections (Some 1) (Some 2) 40 pendingStore
  = (Ok (mkResponse 400 (JsonMessage "Connection already exists")),
     pendingStore)
  ∧ length (connectionsOf 1 2
              (post_connections (Some 1) (Some 2) 40 pendingStore).2)
    = 1%nat.
Proof.
  apply (duplicate_request_conflict pendingStore 1 2 40 pendingConnection).
  - exact pendingStore_oneConnection.
  - by eexists.
  - reflexivity.
Defined.

(** C8.  For a connection and an authenticated caller who is not its
    recipient, a response with decision accepted or rejected is answered
    403, and the store, hence the connection and its pending status, is
    unchanged. *)
Theorem respond_by_other_forbidden (db : DB) (caller connectionId now : Z)
    (status : string) (c : Connection.t) :
  is_Some (getUser caller db) →
  getConnectionById connectionId db = Some c →
  Connection.status c = "pending" →
  Connection.connectedToId c ≠ caller →
  status ∈ ["accepted"; "rejected"] →
  put_connection (Some caller) connectionId status now db
  = (Ok (mkResponse 403
           (JsonMessage "Not authorized to update this connection")), db)
  ∧ Connection.status
      <$> getConnectionById connectionId
            (put_connection (Some caller) connectionId status now db).2
    = Some "pending".
Proof.
  intros (user & Hreq & Hid)%reqUser_authenticated Hget Hpending Hne Hst.
  assert (put_connection (Some caller) connectionId status now db
          = (Ok (mkResponse 403
                   (JsonMessage "Not authorized to update this connection")),
             db)) as Hres.
  { unfold put_connection, bind, query, send, ret.
    rewrite Hreq. simpl. rewrite decide_True by done.
    rewrite Hget, Hid. by rewrite decide_True by done. }
  rewrite Hres. split; [done|]. simpl. by rewrite Hget, <- Hpending.
Qed.

Lemma respond_by_other_forbidden_witness :
  put_connection (Some 3) 1 "accepted" 40 pendingStore
  = (Ok (mkResponse 403
           (JsonMessage "Not authorized to update this connection")),
     pendingStore)
  ∧ Connection.status
      <$> getConnectionById 1
            (put_connection (Some 3) 1 "accepted" 40 pendingStore).2
    = Some "pending".
Proof.
  apply (respond_by_other_forbidden pendingStore 3 1 40 "accepted"
           pendingConnection).
  - by eexists.
  - reflexivity.
  - reflexivity.
  - simpl. lia.
  - set_solver.
Defined.

(** C5, as worded, fails: Bob, the recipient of an accepted connection,
    answers it again with "rejected"; the answer is 200 and the stored
    status is overwritten. *)
Lemma resolved_connection_not_terminal :
  ¬ respondRejectsResolved (Some 2) 1 "rejected" 50 connectedStore.
Proof.
  intros Hclaim.
  specialize (Hclaim acceptedConnection eq_refl).
  destruct Hclaim as [_ Hstatus]; [done|].
  vm_compute in Hstatus. discriminate Hstatus.
Qed.

(** C5, amended.  For a connection of any status whose requester still
    exists, a response of its authenticated recipient with decision
    accepted or rejected is answered 200 with the updated row, and the
    stored status becomes the decision: no status is terminal, and the
    handler has no conflict answer. *)
Theorem respond_overwrites_status (db : DB) (u connectionId now : Z)
    (status : string) (c : Connection.t) :
  is_Some (getUser u db) →
  getConnectionById connectionId db = Some c →
  Connection.connectedToId c = u →
  userExists (Connection.userId c) db →
  status ∈ ["accepted"; "rejected"] →
  let '(res, db') := put_connection (Some u) connectionId status now db in
  res = Ok (mkResponse 200
              (JsonConnection (Some (Connection.set_status status c))))
  ∧ getConnectionById connectionId db'
    = Some (Connection.set_status status c).
Proof.
  intros Hu Hget Hrec Hreqr Hst.
  destruct (reqUser_authenticated _ _ Hu) as (user & Hreq & Hid).
  destruct (getConnectionById_updated _ status _ _ Hget) as [Hupd1 Hupd2].
  destruct Hu as [x Hx]. apply getUser_Some in Hx as [_ Hex].
  unfold updateConnectionStatus in Hupd1, Hupd2. simpl in Hupd1, Hupd2.
  injection Hupd1 as Hupd1.
  unfold put_connection, bind, query, send, ret.
  rewrite Hreq. simpl. rewrite decide_True by done.
  rewrite Hget, Hid, Hrec. rewrite decide_False by (by intros []).
  simpl. rewrite Hupd1.
  case_decide; [|done].
  unfold createNotification. simpl.
  rewrite !decide_True by done. simpl. done.
Qed.

Lemma respond_overwrites_status_witness :
  let '(res, db') := put_connection (Some 2) 1 "rejected" 50 connectedStore in
  res = Ok (mkResponse 200
              (JsonConnection
                 (Some (Connection.set_status "rejected" acceptedConnection))))
  ∧ getConnectionById 1 db'
    = Some (Connection.set_status "rejected" acceptedConnection).
Proof.
  apply (respond_overwrites_status connectedStore 2 1 50 "rejected"
           acceptedConnection).
  - by eexists.
  - reflexivity.
  - reflexivity.
  - unfold userExists. simpl. set_solver.
  - set_solver.
Defined.

(** C6, as worded, fails: Alice asks to connect to herself; the answer is
    201 and a Connection row is created. *)
Lemma self_request_accepted : ¬ selfRequestRejected 1 50 usersOnly.
Proof.
  unfold selfRequestRejected. intros [Hfailed _].
  vm_compute in Hfailed. by apply Hfailed.
Qed.

(** C6, amended.  A request of an authenticated user [u] to connect to
    [u], when no Connection (u, u) exists, is answered 201 with a new
    pending Connection whose requester and recipient are both [u], and
    that row is the one Connection of the pair (u, u) afterwards. *)
Theorem self_request_creates_connection (db : DB) (u now : Z) :
  is_Some (getUser u db) →
  getConnectionByUsers u u db = None →
  let c := Connection.mk (nextId (connections db)) u u "pending" now in
  let '(res, db') := post_connections (Some u) (Some u) now db in
  res = Ok (mkResponse 201 (JsonConnection (Some c)))
  ∧ connectionsOf u u db' = [c].
Proof.
  intros Hu Hget c.
  destruct (reqUser_authenticated _ _ Hu) as (user & Hreq & Hid).
  destruct Hu as [x Hx]. apply getUser_Some in Hx as [_ Hex].
  unfold post_connections, bind, query, send, ret.
  rewrite Hreq. simpl. rewrite Hid, Hget.
  unfold createConnection. simpl. rewrite !decide_True by done. simpl.
  unfold createNotification. simpl.
  rewrite !decide_True by done. simpl.
  split; [done|]. unfold connectionsOf. simpl.
  rewrite filter_snoc. apply head_filter_None in Hget. rewrite Hget.
  simpl. by rewrite decide_True.
Qed.

Lemma self_request_creates_connection_witness :
  let c := Connection.mk 1 1 1 "pending" 50 in
  let '(res, db') := post_connections (Some 1) (Some 1) 50 usersOnly in
  res = Ok (mkResponse 201 (JsonConnection (Some c)))
  ∧ connectionsOf 1 1 db' = [c].
Proof.
  apply (self_request_creates_connection usersOnly 1 50).
  - by eexists.
  - reflexivity.
Defined.

(** ** Invariants along a sequence of requests *)

Lemma preserves_bind {A B} Φ (m : Db A) (k : A → Db B) :
  preserves Φ m → (∀ a, preserves Φ (k a)) → preserves Φ (bind m k).
Proof.
  intros Hm Hk db HΦ. unfold bind. specialize (Hm db HΦ).
  destruct (m db) as [[a|e] db1]; simpl in *; [by apply Hk | done].
Qed.

Lemma preserves_query {A} Φ (f : DB → A) : preserves Φ (query f).
Proof. by intros db. Qed.

Lemma preserves_send Φ code b : preserves Φ (send code b).
Proof. by intros db. Qed.

Lemma oneLike_frame db db' :
  likes db' = likes db → oneLikePerUserAndVibe db →
  oneLikePerUserAndVibe db'.
Proof. intros Heq Hinv u c. unfold likesOf. rewrite Heq. apply Hinv. Qed.

Lemma oneConnection_frame db db' :
  connections db' = connections db → oneConnectionPerPair db →
  oneConnectionPerPair db'.
Proof.
  intros Heq Hinv a b. unfold connectionsOf. rewrite Heq. apply Hinv.
Qed.

Lemma noSelf_frame db db' :
  notifications db' = notifications db → noSelfNotification db →
  noSelfNotification db'.
Proof. intros Heq Hinv n. rewrite Heq. apply Hinv. Qed.

Create HintDb preserves.

Lemma createNotification_oneLike n now :
  preserves oneLikePerUserAndVibe (createNotification n now).
Proof. intros db. apply oneLike_frame, createNotification_frame. Qed.

Lemma createNotification_oneConnection n now :
  preserves oneConnectionPerPair (createNotification n now).
Proof. intros db. apply oneConnection_frame, createNotification_frame. Qed.

Lemma createComment_oneLike c now :
  preserves oneLikePerUserAndVibe (createComment c now).
Proof. intros db. apply oneLike_frame, createComment_frame. Qed.

Lemma createComment_oneConnection c now :
  preserves oneConnectionPerPair (createComment c now).
Proof. intros db. apply oneConnection_frame, createComment_frame. Qed.

Lemma createComment_noSelf c now :
  preserves noSelfNotification (createComment c now).
Proof. intros db. apply noSelf_frame, createComment_frame. Qed.

Lemma createMessage_oneLike m now :
  preserves oneLikePerUserAndVibe (createMessage m now).
Proof. intros db. apply oneLike_frame, createMessage_frame. Qed.

Lemma createMessage_oneConnection m now :
  preserves oneConnectionPerPair (createMessage m now).
Proof. intros db. apply oneConnection_frame, createMessage_frame. Qed.

Lemma createOrUpdateLike_oneLike like now :
  preserves oneLikePerUserAndVibe (createOrUpdateLike like now).
Proof. intros db. apply createOrUpdateLike_unique. Qed.

Lemma createOrUpdateLike_oneConnection like now :
  preserves oneConnectionPerPair (createOrUpdateLike like now).
Proof. intros db. apply oneConnection_frame, createOrUpdateLike_frame. Qed.

Lemma createOrUpdateLike_noSelf like now :
  preserves noSelfNotification (createOrUpdateLike like now).
Proof. intros db. apply noSelf_frame, createOrUpdateLike_frame. Qed.

Lemma createConnection_oneLike c now :
  preserves oneLikePerUserAndVibe (createConnection c now).
Proof. intros db. apply oneLike_frame, createConnection_frame. Qed.

Lemma updateConnectionStatus_oneLike id status :
  preserves oneLikePerUserAndVibe (updateConnectionStatus id status).
Proof. intros db. by apply oneLike_frame. Qed.

Lemma updateConnectionStatus_oneConnection id status :
  preserves oneConnectionPerPair (updateConnectionStatus id status).
Proof. intros db. apply updateConnectionStatus_unique. Qed.

(** A notification whose actor differs from its recipient adds no
    self-notification. *)
Lemma createNotification_noSelf n now :
  in_fromUserId n ≠ Some (in_userId n) →
  preserves noSelfNotification (createNotification n now).
Proof.
  intros Hne db Hinv. unfold createNotification.
  repeat case_decide; simpl; try done.
  intros x [Hx|Hx]%elem_of_app; [by apply Hinv|].
  apply list_elem_of_singleton in Hx as ->. done.
Qed.

#[local] Hint Resolve
  createNotification_oneLike createNotification_oneConnection
  createComment_oneLike createComment_oneConnection createComment_noSelf
  createMessage_oneLike createMessage_oneConnection
  createOrUpdateLike_oneLike createOrUpdateLike_oneConnection
  createOrUpdateLike_noSelf createConnection_oneLike
  updateConnectionStatus_oneLike updateConnectionStatus_oneConnection
  : preserves.

(** Walks through a handler: binds, queries, answers and branches. *)
Ltac preserves_handler :=
  repeat first
    [ apply preserves_send
    | apply preserves_query
    | apply preserves_bind; [|intros ?]
    | match goal with
      | |- preserves _ (match ?x with _ => _ end) => destruct x
      end
    | solve [eauto with preserves] ].

Lemma post_connections_oneConnection session connectedToId now :
  preserves oneConnectionPerPair (post_connections session connectedToId now).
Proof.
  intros db Hinv. unfold post_connections, bind, query, send, ret.
  destruct (reqUser session db) as [user|]; [|done].
  destruct connectedToId as [b|]; [|done]. cbv beta iota.
  destruct (getConnectionByUsers _ _ db) eqn:Hget; [done|].
  match goal with
  | |- context [createConnection ?c now db] =>
      pose proof (createConnection_unique c now db Hget Hinv) as Hinv1;
      destruct (createConnection c now db) as [[conn|e] db1]
  end; [|done].
  match goal with
  | |- context [createNotification ?n now db1] =>
      pose proof (createNotification_oneConnection n now db1 Hinv1) as Hinv2;
      destruct (createNotification n now db1) as [[x|e] db2]
  end; done.
Qed.

Lemma handle_oneLike r now : preserves oneLikePerUserAndVibe (handle r now).
Proof.
  destruct r; simpl;
    unfold post_vibe_comment, post_vibe_like, post_connections,
      put_connection, post_messages;
    preserves_handler.
Qed.

Lemma handle_oneConnection r now :
  preserves oneConnectionPerPair (handle r now).
Proof.
  destruct r; simpl; try apply post_connections_oneConnection;
    unfold post_vibe_comment, post_vibe_like, put_connection, post_messages;
    preserves_handler.
Qed.

Lemma serve_preserves Φ rs db :
  (∀ r now, preserves Φ (handle r now)) → Φ db → Φ (serve rs db).
Proof.
  intros Hstep. revert db.
  induction rs as [|[r now] rs IH]; intros db HΦ; [done|].
  simpl. apply IH. by apply Hstep.
Qed.

(** Every sequence of requests keeps at most one Reaction per (content,
    user) and at most one Connection per ordered pair. *)
Lemma serve_unique_rows rs db :
  oneLikePerUserAndVibe db → oneConnectionPerPair db →
  oneLikePerUserAndVibe (serve rs db) ∧ oneConnectionPerPair (serve rs db).
Proof.
  split; apply serve_preserves;
    auto using handle_oneLike, handle_oneConnection.
Qed.

(** ** Notifications *)

(** The comment and like handlers notify the owner of the vibe only when
    the owner is not the actor: they never store a self-notification. *)
Lemma post_vibe_comment_noSelf session vibeId content now :
  preserves noSelfNotification (post_vibe_comment session vibeId content now).
Proof.
  unfold post_vibe_comment. preserves_handler.
  apply createNotification_noSelf. simpl. congruence.
Qed.

Lemma post_vibe_like_noSelf session vibeId isLike now :
  preserves noSelfNotification (post_vibe_like session vibeId isLike now).
Proof.
  unfold post_vibe_like. preserves_handler.
  apply createNotification_noSelf. simpl. intros [=]. intuition congruence.
Qed.

(** The connection-request and message handlers notify the recipient
    without comparing it with the actor. *)
Lemma usersOnly_noSelf : noSelfNotification usersOnly.
Proof. intros n Hn. by apply not_elem_of_nil in Hn. Qed.

(** C3, at the failing inputs.  From a store without notifications, a
    message of Alice to herself, and a connection request of Alice to
    herself, each persist a notification whose actor is its recipient. *)
Theorem self_notification_persisted :
  noSelfNotification usersOnly
  ∧ ¬ noSelfNotification
        (serve [(PostMessages (Some 1) (Some 1) (Some "gm"), 50)] usersOnly)
  ∧ ¬ noSelfNotification
        (serve [(PostConnections (Some 1) (Some 1), 50)] usersOnly).
Proof.
  split; [exact usersOnly_noSelf|].
  split; intros Hinv.
  - apply (Hinv (Notification.mk 1 1 "message" (Some 1) (Some 1)
                   (Some "gm") false 50)); [|done].
    vm_compute. left.
  - apply (Hinv (Notification.mk 1 1 "connection_request" (Some 1) (Some 1)
                   None false 50)); [|done].
    vm_compute. left.
Qed.

(** ** Queries over vibes *)

#[local] Instance newerFirst_total : Total newerFirst.
Proof. intros a b. unfold newerFirst. lia. Qed.
#[local] Instance newerFirst_trans : Transitive newerFirst.
Proof. intros a b c. unfold newerFirst. lia. Qed.
#[local] Instance moreLikesFirst_total : Total moreLikesFirst.
Proof. intros a b. unfold moreLikesFirst. lia. Qed.
#[local] Instance moreLikesFirst_trans : Transitive moreLikesFirst.
Proof. intros a b c. unfold moreLikesFirst. lia. Qed.

(** The hashtag route passes the path segment to the storage query as it
    is, and answers with the rows. *)
Lemma get_vibes_by_hashtag_answer hashtag db :
  get_vibes_by_hashtag hashtag db
  = (Ok (mkResponse 200 (JsonVibes (getVibesByHashtag hashtag db))), db).
Proof. reflexivity. Qed.

(** C9, as worded, fails: the vibe tagged [Web3] contains the tag [web3]
    up to letter case, and the query for [web3] does not return it. *)
Lemma hashtag_query_is_case_sensitive :
  ¬ queryByTagIgnoresCase "web3" taggedStore.
Proof.
  intros Hclaim. specialize (Hclaim vibeWeb3).
  assert (vibeWeb3 ∈ getVibesByHashtag "web3" taggedStore) as Hin.
  { apply Hclaim. split; [left|]. vm_compute. left. }
  vm_compute in Hin. by apply not_elem_of_nil in Hin.
Qed.

(** C9, amended.  [getVibesByHashtag t] returns exactly the vibes whose
    hashtag array has an element equal to [t], letter case included, (a
    vibe without a hashtag array never matches), each as often as it is
    stored, ordered newest first by createdAt. *)
Theorem getVibesByHashtag_exact_match (hashtag : string) (db : DB) :
  (∀ v, v ∈ getVibesByHashtag hashtag db
        ↔ v ∈ rows (vibes db)
          ∧ ∃ tags, Vibe.hashtags v = Some tags ∧ hashtag ∈ tags)
  ∧ getVibesByHashtag hashtag db
    ≡ₚ filter (hasHashtag hashtag) (rows (vibes db))
  ∧ StronglySorted newerFirst (getVibesByHashtag hashtag db).
Proof.
  unfold getVibesByHashtag. split; [|split].
  - intros v. rewrite merge_sort_Permutation, list_elem_of_filter.
    unfold hasHashtag. destruct (Vibe.hashtags v) as [tags|].
    + split; [intros [? ?]; eauto | intros [? (t & [= <-] & ?)]; done].
    + split; [intros [[] _] | intros [_ (t & [=] & _)]].
  - apply merge_sort_Permutation.
  - apply StronglySorted_merge_sort; apply _.
Qed.

(** *** Trending *)

Lemma getTrendingVibes_stages limit db :
  getTrendingVibes limit db
  = if decide (length (topIds limit db) = 0%nat) then []
    else merge_sort newerFirst
           (filter (λ v, Vibe.id v ∈ topIds limit db) (rows (vibes db))).
Proof. reflexivity. Qed.

Lemma elem_of_getTrendingVibes limit db v :
  v ∈ getTrendingVibes limit db
  ↔ v ∈ rows (vibes db) ∧ Vibe.id v ∈ topIds limit db.
Proof.
  rewrite getTrendingVibes_stages. case_decide as Hlen.
  - apply nil_length_inv in Hlen. rewrite Hlen.
    split; [intros []%not_elem_of_nil | intros [_ []%not_elem_of_nil]].
  - rewrite merge_sort_Permutation, list_elem_of_filter. tauto.
Qed.

Lemma elem_of_take_elem_of {A} (l : list A) n x : x ∈ take n l → x ∈ l.
Proof. intros Hx. rewrite <- (take_drop n l). apply elem_of_app. by left. Qed.

Lemma likeCounts_count db i n : (i, n) ∈ likeCounts db → n = likesCount i db.
Proof.
  unfold likeCounts. intros (v & [= -> ->] & _)%list_elem_of_fmap. done.
Qed.

Lemma topIds_count limit db i :
  i ∈ topIds limit db →
  (i, likesCount i db) ∈ take limit (merge_sort moreLikesFirst (likeCounts db)).
Proof.
  unfold topIds. intros ([j n] & -> & Hp)%list_elem_of_fmap. simpl.
  apply elem_of_take_elem_of in Hp as Hin.
  rewrite merge_sort_Permutation in Hin.
  by rewrite <- (likeCounts_count _ _ _ Hin).
Qed.

Lemma topIds_most_liked limit db i j :
  i ∈ topIds limit db → j ∈ (likeCounts db).*1 → j ∉ topIds limit db →
  (likesCount j db ≤ likesCount i db)%nat.
Proof.
  intros Hi Hj Hnj. apply topIds_count in Hi.
  apply list_elem_of_fmap in Hj as ([j' n] & -> & Hin). simpl in *.
  apply likeCounts_count in Hin as Hn. subst n.
  rewrite <- (merge_sort_Permutation moreLikesFirst) in Hin.
  rewrite <- (take_drop limit (merge_sort _ _)) in Hin.
  apply elem_of_app in Hin as [Hin|Hin].
  { destruct Hnj. unfold topIds.
    by apply (list_elem_of_fmap_2 fst) in Hin. }
  assert (StronglySorted moreLikesFirst
            (merge_sort moreLikesFirst (likeCounts db))) as Hsorted
    by (apply StronglySorted_merge_sort; apply _).
  rewrite <- (take_drop limit (merge_sort _ _)) in Hsorted.
  apply (StronglySorted_app_1_elem_of _ _ _ _ _ Hsorted Hi Hin).
Qed.

Lemma likeCounts_ids db : (likeCounts db).*1 = Vibe.id <$> rows (vibes db).
Proof. unfold likeCounts. rewrite <- list_fmap_compose. done. Qed.

Lemma topIds_length limit db :
  length (topIds limit db) = min limit (length (rows (vibes db))).
Proof.
  unfold topIds. rewrite length_fmap, length_take.
  rewrite merge_sort_Permutation. unfold likeCounts.
  by rewrite length_fmap.
Qed.

Lemma topIds_NoDup limit db :
  NoDup (Vibe.id <$> rows (vibes db)) → NoDup (topIds limit db).
Proof.
  intros Hnd. unfold topIds. rewrite fmap_take.
  eapply sublist_NoDup; [|apply sublist_take].
  by rewrite merge_sort_Permutation, likeCounts_ids.
Qed.

Lemma topIds_stored limit db i :
  i ∈ topIds limit db → i ∈ Vibe.id <$> rows (vibes db).
Proof.
  unfold topIds. rewrite fmap_take. intros Hi%elem_of_take_elem_of.
  by rewrite merge_sort_Permutation, likeCounts_ids in Hi.
Qed.

Lemma length_filter_fmap {A B} (f : A → B) (P : B → Prop)
    `{!∀ y, Decision (P y)} `{!∀ x, Decision (P (f x))} (l : list A) :
  length (filter (λ x, P (f x)) l) = length (filter P (f <$> l)).
Proof.
  induction l as [|x l IH]; [done|].
  rewrite fmap_cons, !filter_cons.
  repeat case_decide; simpl; try done; by rewrite IH.
Qed.

Lemma getTrendingVibes_length limit db :
  NoDup (Vibe.id <$> rows (vibes db)) →
  length (getTrendingVibes limit db) = min limit (length (rows (vibes db))).
Proof.
  intros Hnd. rewrite getTrendingVibes_stages, <- topIds_length.
  case_decide as Hlen; [by rewrite Hlen|].
  rewrite merge_sort_Permutation.
  rewrite (length_filter_fmap Vibe.id (λ i, i ∈ topIds limit db)).
  apply Permutation_length, NoDup_Permutation.
  - by apply NoDup_filter.
  - by apply topIds_NoDup.
  - intros i. rewrite list_elem_of_filter.
    split; [tauto|]. intros Hi. split; [done|]. by eapply topIds_stored.
Qed.

(** C2, as worded, fails: for A (3 likes, created at 10), B (3 likes, at
    5) and C (2 likes, at 20) the ranking of the claim is [A, B, C], and
    [getTrendingVibes 3] returns [C, A, B]. *)
Lemma trending_is_not_ranked_by_likes :
  (likesCount 1 trendingStore, likesCount 2 trendingStore,
   likesCount 3 trendingStore) = (3%nat, 3%nat, 2%nat)
  ∧ computeTrending 3 trendingStore = [vibeA; vibeB; vibeC]
  ∧ getTrendingVibes 3 trendingStore = [vibeC; vibeA; vibeB]
  ∧ getTrendingVibes 3 trendingStore ≠ computeTrending 3 trendingStore.
Proof.
  assert (getTrendingVibes 3 trendingStore = [vibeC; vibeA; vibeB]) as Hcode
    by (vm_compute; reflexivity).
  assert (computeTrending 3 trendingStore = [vibeA; vibeB; vibeC]) as Hspec
    by (vm_compute; reflexivity).
  split; [vm_compute; reflexivity|]. split; [done|]. split; [done|].
  rewrite Hcode, Hspec. discriminate.
Qed.

(** C2, amended.  In a store whose vibes have distinct ids,
    [getTrendingVibes n] returns min(n, number of vibes) vibes of the
    store; no vibe left out has more likes (Reactions with isLike = true)
    than a returned one; and the returned vibes are ordered by createdAt
    descending, newest first, not by their like counts. *)
Theorem getTrendingVibes_newest_first_of_most_liked (limit : nat) (db : DB) :
  NoDup (Vibe.id <$> rows (vibes db)) →
  length (getTrendingVibes limit db) = min limit (length (rows (vibes db)))
  ∧ (∀ v, v ∈ getTrendingVibes limit db → v ∈ rows (vibes db))
  ∧ (∀ v w, v ∈ getTrendingVibes limit db → w ∈ rows (vibes db) →
            w ∉ getTrendingVibes limit db →
            (likesCount (Vibe.id w) db ≤ likesCount (Vibe.id v) db)%nat)
  ∧ StronglySorted newerFirst (getTrendingVibes limit db).
Proof.
  intros Hnd. split; [by apply getTrendingVibes_length|].
  split; [intros v Hv; by apply elem_of_getTrendingVibes in Hv as [? _]|].
  split.
  - intros v w [_ Hv]%elem_of_getTrendingVibes Hw Hnw.
    apply (topIds_most_liked limit); [done| |].
    + rewrite likeCounts_ids. by apply list_elem_of_fmap_2.
    + intros Hin. apply Hnw, elem_of_getTrendingVibes. done.
  - rewrite getTrendingVibes_stages. case_decide; [constructor|].
    apply StronglySorted_merge_sort; apply _.
Qed.

Lemma getTrendingVibes_newest_first_of_most_liked_witness :
  length (getTrendingVibes 2 trendingStore)
  = min 2 (length (rows (vibes trendingStore)))
  ∧ (∀ v, v ∈ getTrendingVibes 2 trendingStore →
          v ∈ rows (vibes trendingStore))
  ∧ (∀ v w, v ∈ getTrendingVibes 2 trendingStore →
            w ∈ rows (vibes trendingStore) →
            w ∉ getTrendingVibes 2 trendingStore →
            (likesCount (Vibe.id w) trendingStore
             ≤ likesCount (Vibe.id v) trendingStore)%nat)
  ∧ StronglySorted newerFirst (getTrendingVibes 2 trendingStore).
Proof.
  apply (getTrendingVibes_newest_first_of_most_liked 2 trendingStore).
  apply (bool_decide_unpack _). vm_compute. reflexivity.
Defined.

(** ** Quest completion *)





(** * Further properties of the storage layer and the routes *)

(** ** Deleting a vibe *)

Lemma filter_filter_ne {A} (f : A → Z) (i j : Z) (l : list A) :
  i ≠ j →
  filter (λ r, f r = j) (filter (λ r, ¬ f r = i) l)
  = filter (λ r, f r = j) l.
Proof.
  intros Hne. rewrite list_filter_filter. apply list_filter_iff.
  intros r. split; [tauto|]. intros <-. split; [done|]. congruence.
Qed.

Lemma filter_filter_eq {A} (f : A → Z) (i : Z) (l : list A) :
  filter (λ r, f r = i) (filter (λ r, ¬ f r = i) l) = [].
Proof.
  rewrite list_filter_filter.
  induction l as [|r l IH]; [done|].
  rewrite filter_cons. by rewrite decide_False by tauto.
Qed.

Lemma likesCount_filter j db :
  likesCount j db
  = length (filter (λ l, Like.isLike l = true) (getLikesByVibeId j db)).
Proof.
  unfold likesCount, getLikesByVibeId. rewrite list_filter_filter.
  f_equal. apply list_filter_iff. tauto.
Qed.

Lemma elem_of_drop_elem_of {A} (l : list A) n x : x ∈ drop n l → x ∈ l.
Proof. intros Hx. rewrite <- (take_drop n l). apply elem_of_app. by right. Qed.

Lemma deleteVibe_ok id db : deleteVibe id db = (Ok (), (deleteVibe id db).2).
Proof. reflexivity. Qed.

(** X1.  After [deleteVibe id] the vibe can no longer be looked up and has
    no comments, no likes and a like count of 0; every other vibe keeps its
    row, its comments, its likes and its like count; users, connections
    and notifications are not touched. *)
Theorem deleteVibe_cascade (id : Z) (db : DB) :
  let db' := (deleteVibe id db).2 in
  (getVibeById id db' = None
   ∧ getCommentsByVibeId id db' = []
   ∧ getLikesByVibeId id db' = []
   ∧ likesCount id db' = 0%nat)
  ∧ (∀ j, j ≠ id →
       getVibeById j db' = getVibeById j db
       ∧ getCommentsByVibeId j db' = getCommentsByVibeId j db
       ∧ getLikesByVibeId j db' = getLikesByVibeId j db
       ∧ likesCount j db' = likesCount j db)
  ∧ users db' = users db
  ∧ connections db' = connections db
  ∧ notifications db' = notifications db.
Proof.
  simpl. split; [|split; [|done]].
  - rewrite likesCount_filter.
    unfold getVibeById, getCommentsByVibeId, getLikesByVibeId. simpl.
    rewrite !(filter_filter_eq _ id). done.
  - intros j Hj. rewrite !likesCount_filter.
    unfold getVibeById, getCommentsByVibeId, getLikesByVibeId. simpl.
    rewrite !(filter_filter_ne _ id j) by done. done.
Qed.

Lemma deleteVibe_gone id db : getVibeById id (deleteVibe id db).2 = None.
Proof.
  unfold getVibeById. simpl. by rewrite (filter_filter_eq Vibe.id id).
Qed.



(** X3.  When the owner deletes a vibe the answer is 200, and afterwards
    no feed, trending list, hashtag query or per-user list returns a vibe
    with that id. *)
Theorem delete_vibe_by_owner (db : DB) (owner vibeId : Z) (vibe : Vibe.t) :
  is_Some (getUser owner db) →
  getVibeById vibeId db = Some vibe →
  Vibe.userId vibe = owner →
  let '(res, db') := delete_vibe (Some owner) vibeId db in
  res = Ok (mkResponse 200 (JsonMessage "Vibe deleted successfully"))
  ∧ getVibeById vibeId db' = None
  ∧ ∀ v, (∃ limit offset, v ∈ getAllVibes limit offset db')
         ∨ (∃ limit, v ∈ getTrendingVibes limit db')
         ∨ (∃ hashtag, v ∈ getVibesByHashtag hashtag db')
         ∨ (∃ userId, v ∈ getVibesByUserId userId db') →
         Vibe.id v ≠ vibeId.
Proof.
  intros (user & Hreq & Hid)%reqUser_authenticated Hget Howner.
  unfold delete_vibe, bind, query, send, ret. rewrite Hreq. cbv beta iota.
  rewrite Hget. rewrite decide_False by (rewrite Hid; tauto).
  rewrite deleteVibe_ok.
  split; [done|]. split; [apply deleteVibe_gone|].
  assert (∀ v, v ∈ rows (vibes (deleteVibe vibeId db).2) →
             Vibe.id v ≠ vibeId) as Hrows.
  { intros v. simpl. rewrite list_elem_of_filter. tauto. }
  intros v [(limit & offset & Hv)|[(limit & Hv)|[(t & Hv)|(u & Hv)]]];
    apply Hrows.
  - unfold getAllVibes in Hv.
    apply elem_of_take_elem_of, elem_of_drop_elem_of in Hv.
    by rewrite merge_sort_Permutation in Hv.
  - by apply elem_of_getTrendingVibes in Hv as [? _].
  - unfold getVibesByHashtag in Hv.
    rewrite merge_sort_Permutation, list_elem_of_filter in Hv. tauto.
  - unfold getVibesByUserId in Hv.
    rewrite merge_sort_Permutation, list_elem_of_filter in Hv. tauto.
Qed.

Lemma delete_vibe_by_owner_witness :
  let '(res, db') := delete_vibe (Some 1) 1 trendingStore in
  res = Ok (mkResponse 200 (JsonMessage "Vibe deleted successfully"))
  ∧ getVibeById 1 db' = None
  ∧ ∀ v, (∃ limit offset, v ∈ getAllVibes limit offset db')
         ∨ (∃ limit, v ∈ getTrendingVibes limit db')
         ∨ (∃ hashtag, v ∈ getVibesByHashtag hashtag db')
         ∨ (∃ userId, v ∈ getVibesByUserId userId db') →
         Vibe.id v ≠ 1.
Proof.
  apply (delete_vibe_by_owner trendingStore 1 1 vibeA).
  - by eexists.
  - reflexivity.
  - reflexivity.
Defined.

(** ** Creating and paging vibes *)

Lemma freshIds_not_next {A} (id : A → Z) (t : Table A) :
  freshIds id t → filter (λ r, id r = nextId t) (rows t) = [].
Proof.
  unfold freshIds. generalize (nextId t) (rows t). intros n l Hfresh.
  induction l as [|r l IH]; [done|]. rewrite filter_cons.
  assert (id r < n) by (apply Hfresh; left).
  rewrite decide_False by lia.
  apply IH. intros x Hx. apply Hfresh. by right.
Qed.

(** X4.  For an existing user and a vibes table whose ids come from its
    sequence, [createVibe] returns the new row with the next id; the row
    is then found by its id, in the list of its author, and by exactly the
    hashtags it was created with; the lookup of every other id is
    unchanged and the ids still come from the sequence. *)
Theorem createVibe_lookup (v : InsertVibe) (now : Z) (db : DB) :
  userExists (iv_userId v) db →
  freshIds Vibe.id (vibes db) →
  let created :=
    Vibe.mk (nextId (vibes db)) (iv_userId v) (iv_content v) (iv_mediaUrl v)
            (iv_mediaType v) (iv_hashtags v) now in
  let '(res, db') := createVibe v now db in
  res = Ok created
  ∧ getVibeById (Vibe.id created) db' = Some created
  ∧ (∀ j, j ≠ Vibe.id created → getVibeById j db' = getVibeById j db)
  ∧ created ∈ getVibesByUserId (iv_userId v) db'
  ∧ (∀ t, created ∈ getVibesByHashtag t db'
          ↔ ∃ tags, iv_hashtags v = Some tags ∧ t ∈ tags)
  ∧ freshIds Vibe.id (vibes db').
Proof.
  intros Hu Hfresh created. unfold createVibe.
  rewrite decide_True by done. simpl. fold created.
  assert (created ∈ rows (vibes db) ++ [created]) as Hin
    by (apply elem_of_app; right; left).
  split; [done|]. split; [|split; [|split; [|split]]].
  - unfold getVibeById. simpl. rewrite filter_snoc.
    rewrite (freshIds_not_next Vibe.id) by done.
    by rewrite decide_True.
  - intros j Hj. unfold getVibeById. simpl. rewrite filter_snoc.
    rewrite decide_False by (simpl in *; congruence).
    by rewrite app_nil_r.
  - unfold getVibesByUserId. simpl.
    rewrite merge_sort_Permutation, list_elem_of_filter. done.
  - intros t. unfold getVibesByHashtag. simpl.
    rewrite merge_sort_Permutation, list_elem_of_filter.
    unfold hasHashtag. simpl. destruct (iv_hashtags v) as [tags|].
    + split; [intros [? _]; eauto | intros (? & [= <-] & ?); done].
    + split; [intros [[] _] | intros (? & [=] & _)].
  - intros r [Hr| ->%list_elem_of_singleton]%elem_of_app; simpl.
    + apply Hfresh in Hr. lia.
    + lia.
Qed.

Lemma trendingStore_fresh_vibes : freshIds Vibe.id (vibes trendingStore).
Proof.
  intros r Hr. simpl in Hr.
  repeat (apply elem_of_cons in Hr as [->|Hr]; [simpl; lia|]).
  by apply not_elem_of_nil in Hr.
Qed.

Lemma createVibe_lookup_witness :
  let v := {| iv_userId := 2; iv_content := Some "gm"; iv_mediaUrl := None;
              iv_mediaType := None; iv_hashtags := Some ["web3"] |} in
  let created := Vibe.mk 4 2 (Some "gm") None None (Some ["web3"]) 40 in
  let '(res, db') := createVibe v 40 trendingStore in
  res = Ok created
  ∧ getVibeById (Vibe.id created) db' = Some created
  ∧ (∀ j, j ≠ Vibe.id created →
          getVibeById j db' = getVibeById j trendingStore)
  ∧ created ∈ getVibesByUserId (iv_userId v) db'
  ∧ (∀ t, created ∈ getVibesByHashtag t db'
          ↔ ∃ tags, iv_hashtags v = Some tags ∧ t ∈ tags)
  ∧ freshIds Vibe.id (vibes db').
Proof.
  apply (createVibe_lookup
           {| iv_userId := 2; iv_content := Some "gm"; iv_mediaUrl := None;
              iv_mediaType := None; iv_hashtags := Some ["web3"] |}
           40 trendingStore).
  - unfold userExists. simpl. set_solver.
  - exact trendingStore_fresh_vibes.
Defined.

(** X5.  A page of the feed has min(limit, number of vibes - offset)
    vibes, all of them stored, ordered newest first; and no vibe of a
    later page is newer than a vibe of an earlier page. *)
Theorem getAllVibes_pages (limit offset limit' : nat) (db : DB) :
  length (getAllVibes limit offset db)
  = min limit (length (rows (vibes db)) - offset)
  ∧ (∀ v, v ∈ getAllVibes limit offset db → v ∈ rows (vibes db))
  ∧ StronglySorted newerFirst (getAllVibes limit offset db)
  ∧ (∀ v w, v ∈ getAllVibes limit offset db →
            w ∈ getAllVibes limit' (offset + limit) db →
            Vibe.createdAt w ≤ Vibe.createdAt v).
Proof.
  unfold getAllVibes.
  assert (StronglySorted newerFirst
            (merge_sort newerFirst (rows (vibes db)))) as Hsorted
    by (apply StronglySorted_merge_sort; apply _).
  set (s := merge_sort newerFirst (rows (vibes db))) in *.
  assert (StronglySorted newerFirst (drop offset s)) as Hdrop.
  { rewrite <- (take_drop offset s) in Hsorted.
    by apply StronglySorted_app_1_r in Hsorted. }
  split; [|split; [|split]].
  - rewrite length_take, length_drop. unfold s.
    by rewrite merge_sort_Permutation.
  - intros v Hv%elem_of_take_elem_of%elem_of_drop_elem_of.
    unfold s in Hv. by rewrite merge_sort_Permutation in Hv.
  - rewrite <- (take_drop limit (drop offset s)) in Hdrop.
    by apply StronglySorted_app_1_l in Hdrop.
  - intros v w Hv Hw%elem_of_take_elem_of.
    rewrite <- drop_drop in Hw.
    rewrite <- (take_drop limit (drop offset s)) in Hdrop.
    apply (StronglySorted_app_1_elem_of _ _ _ _ _ Hdrop Hv Hw).
Qed.

(** ** Reactions: lookups, counts and notifications *)

Lemma NoDup_fmap_elem_inj {A B} (f : A → B) (l : list A) x y :
  NoDup (f <$> l) → x ∈ l → y ∈ l → f x = f y → x = y.
Proof.
  induction l as [|r l IH]; [by intros _ ?%not_elem_of_nil|].
  rewrite fmap_cons, NoDup_cons. intros [Hr Hl].
  intros [->|Hx]%elem_of_cons [->|Hy]%elem_of_cons Heq; auto.
  - destruct Hr. rewrite Heq. by apply list_elem_of_fmap_2.
  - destruct Hr. rewrite <- Heq. by apply list_elem_of_fmap_2.
Qed.

(** With distinct ids, an update by id touches the one row of that id. *)
Lemma filter_id_singleton {A} (id : A → Z) (l : list A) x :
  NoDup (id <$> l) → x ∈ l → filter (λ r, id r = id x) l = [x].
Proof.
  induction l as [|r l IH]; [by intros _ ?%not_elem_of_nil|].
  rewrite fmap_cons, NoDup_cons, filter_cons. intros [Hr Hl] Hx.
  assert (∀ y, y ∈ l → id y ≠ id r) as Hne.
  { intros y Hy Heq. apply Hr. rewrite <- Heq. by apply list_elem_of_fmap_2. }
  apply elem_of_cons in Hx as [->|Hx].
  - rewrite decide_True by done. f_equal.
    clear IH Hr Hl. induction l as [|y l IH]; [done|].
    rewrite filter_cons, decide_False by (apply Hne; left).
    apply IH. intros z Hz. apply Hne. by right.
  - rewrite decide_False by (intros Heq; by apply (Hne x)).
    by apply IH.
Qed.

Lemma update_other_rows {A} (id : A → Z) (f : A → A) (x : A) (l : list A) :
  (∀ r, r ∈ l → id r ≠ id x) →
  (λ r, if decide (id r = id x) then f r else r) <$> l = l.
Proof.
  intros Hne. induction l as [|r l IH]; [done|].
  rewrite fmap_cons, decide_False by (apply Hne; left).
  f_equal. apply IH. intros y Hy. apply Hne. by right.
Qed.

Lemma createOrUpdateLike_existing like now db existing :
  NoDup (Like.id <$> rows (likes db)) →
  getLikeByUserAndVibe (il_userId like) (il_vibeId like) db = Some existing →
  (createOrUpdateLike like now db).1
  = Ok (Some (Like.set_isLike (il_isLike like) existing))
  ∧ getLikeByUserAndVibe (il_userId like) (il_vibeId like)
      (createOrUpdateLike like now db).2
    = Some (Like.set_isLike (il_isLike like) existing).
Proof.
  intros Hnd Hget. unfold createOrUpdateLike. rewrite Hget. simpl.
  apply head_filter_Some in Hget as Hex. destruct Hex as [_ Hin].
  rewrite (filter_id_singleton Like.id) by done. split; [done|].
  unfold getLikeByUserAndVibe in *. simpl.
  rewrite filter_update by (by intros []).
  destruct (filter _ (rows (likes db))); simplify_eq/=.
  by rewrite decide_True.
Qed.

Lemma createOrUpdateLike_liked (u c now : Z) (b : bool) (db : DB) :
  NoDup (Like.id <$> rows (likes db)) →
  userExists u db → vibeExists c db →
  liked u c
    (createOrUpdateLike {| il_vibeId := c; il_userId := u; il_isLike := b |}
                        now db).2
  = b.
Proof.
  intros Hnd Hu Hc.
  set (like := {| il_vibeId := c; il_userId := u; il_isLike := b |}).
  unfold liked.
  destruct (getLikeByUserAndVibe u c db) as [existing|] eqn:Hget.
  - destruct (createOrUpdateLike_existing like now db existing Hnd Hget)
      as [_ Hlook].
    simpl in Hlook. by rewrite Hlook.
  - unfold createOrUpdateLike. simpl. rewrite Hget.
    rewrite !decide_True by done. simpl.
    apply head_filter_None in Hget.
    unfold getLikeByUserAndVibe. simpl. rewrite filter_snoc, Hget.
    simpl. by rewrite decide_True.
Qed.

(** X6.  With distinct like ids, for an existing user and vibe,
    [createOrUpdateLike] returns the row it stored; a lookup of the pair
    afterwards gives that row, with the requested isLike; a row that
    existed keeps its id and creation time; and the rows of every other
    (user, vibe) pair are unchanged. *)
Theorem createOrUpdateLike_lookup (u c now : Z) (b : bool) (db : DB) :
  NoDup (Like.id <$> rows (likes db)) →
  userExists u db → vibeExists c db →
  let '(res, db') :=
    createOrUpdateLike {| il_vibeId := c; il_userId := u; il_isLike := b |}
                       now db in
  ∃ l, res = Ok (Some l)
       ∧ getLikeByUserAndVibe u c db' = Some l
       ∧ (Like.userId l, Like.vibeId l, Like.isLike l) = (u, c, b)
       ∧ (∀ old, getLikeByUserAndVibe u c db = Some old →
                 l = Like.set_isLike b old)
       ∧ (∀ u' c', (u', c') ≠ (u, c) →
                   likesOf u' c' db' = likesOf u' c' db).
Proof.
  intros Hnd Hu Hc.
  set (like := {| il_vibeId := c; il_userId := u; il_isLike := b |}).
  destruct (getLikeByUserAndVibe u c db) as [existing|] eqn:Hget.
  - destruct (createOrUpdateLike_existing like now db existing Hnd Hget)
      as [Hres Hlook].
    destruct (createOrUpdateLike like now db) as [res db'] eqn:Hcall.
    simpl in Hres, Hlook. subst res.
    exists (Like.set_isLike b existing). split; [done|]. split; [done|].
    apply head_filter_Some in Hget as Hex. destruct Hex as [[Heu Hec] Hin].
    split; [simpl; congruence|]. split; [by intros ? [= <-]|].
    intros u' c' Hne.
    assert (db' = (createOrUpdateLike like now db).2) as ->
      by by rewrite Hcall.
    unfold createOrUpdateLike. simpl. rewrite Hget. simpl.
    erewrite likesOf_update by done.
    apply (update_other_rows Like.id). intros r Hr Heq.
    apply list_elem_of_filter in Hr as [[Hru Hrc] Hr].
    assert (r = existing)
      by by apply (NoDup_fmap_elem_inj Like.id (rows (likes db))).
    congruence.
  - unfold createOrUpdateLike. simpl. rewrite Hget.
    rewrite !decide_True by done. simpl. eexists. split; [done|].
    apply head_filter_None in Hget.
    split; [|split; [done|split; [done|]]].
    + unfold getLikeByUserAndVibe. simpl. rewrite filter_snoc, Hget.
      simpl. by rewrite decide_True.
    + intros u' c' Hne. unfold likesOf. simpl. rewrite filter_snoc.
      simpl. rewrite decide_False by (intros [-> ->]; done).
      by rewrite app_nil_r.
Qed.

Lemma trendingStore_like_ids : NoDup (Like.id <$> rows (likes trendingStore)).
Proof. apply (bool_decide_unpack _). vm_compute. reflexivity. Qed.

Lemma createOrUpdateLike_lookup_witness :
  let '(res, db') :=
    createOrUpdateLike {| il_vibeId := 1; il_userId := 2; il_isLike := false |}
                       40 trendingStore in
  ∃ l, res = Ok (Some l)
       ∧ getLikeByUserAndVibe 2 1 db' = Some l
       ∧ (Like.userId l, Like.vibeId l, Like.isLike l) = (2, 1, false)
       ∧ (∀ old, getLikeByUserAndVibe 2 1 trendingStore = Some old →
                 l = Like.set_isLike false old)
       ∧ (∀ u' c', (u', c') ≠ (2, 1) →
                   likesOf u' c' db' = likesOf u' c' trendingStore).
Proof.
  apply (createOrUpdateLike_lookup 2 1 40 false trendingStore).
  - exact trendingStore_like_ids.
  - unfold userExists. simpl. set_solver.
  - unfold vibeExists. simpl. set_solver.
Defined.

Lemma count_after_update {A} (id : A → Z) (f : A → A) (P : A → Prop)
    `{!∀ r, Decision (P r)} (x : A) (l : list A) :
  NoDup (id <$> l) → x ∈ l →
  (length (filter P ((λ r, if decide (id r = id x) then f r else r) <$> l))
   + (if decide (P x) then 1 else 0)
   = length (filter P l) + (if decide (P (f x)) then 1 else 0))%nat.
Proof.
  induction l as [|r l IH]; [by intros _ ?%not_elem_of_nil|].
  rewrite !fmap_cons, NoDup_cons. intros [Hr Hl] Hx.
  assert (∀ y, y ∈ l → id y ≠ id r) as Hne.
  { intros y Hy Heq. apply Hr. rewrite <- Heq. by apply list_elem_of_fmap_2. }
  apply elem_of_cons in Hx as [->|Hx].
  - rewrite decide_True by done.
    rewrite (update_other_rows id f r l) by done.
    rewrite !filter_cons. repeat case_decide; simpl; lia.
  - rewrite decide_False by (intros Heq; by apply (Hne x)).
    specialize (IH Hl Hx). rewrite !filter_cons.
    repeat case_decide; simpl in *; lia.
Qed.

(** X7.  With distinct like ids, for an existing user and vibe, a
    [createOrUpdateLike] call changes the like count of the vibe by the
    difference between the new and the previous reaction of that user (a
    user weighs at most one like), and changes no other vibe's count. *)
Theorem createOrUpdateLike_count (u c now : Z) (b : bool) (db : DB) :
  NoDup (Like.id <$> rows (likes db)) →
  userExists u db → vibeExists c db →
  let db' :=
    (createOrUpdateLike {| il_vibeId := c; il_userId := u; il_isLike := b |}
                        now db).2 in
  (likesCount c db' + (if liked u c db then 1 else 0)
   = likesCount c db + (if b then 1 else 0))%nat
  ∧ liked u c db' = b
  ∧ ∀ c', c' ≠ c → likesCount c' db' = likesCount c' db.
Proof.
  intros Hnd Hu Hc db'.
  assert (liked u c db' = b) as Hliked
    by by apply createOrUpdateLike_liked.
  split; [|split; [done|]]; unfold db', createOrUpdateLike, liked, likesCount;
    simpl; destruct (getLikeByUserAndVibe u c db) as [existing|] eqn:Hget;
    simpl.
  - apply head_filter_Some in Hget as [[Heu Hec] Hin].
    pose proof (count_after_update Like.id (Like.set_isLike b)
                  (λ l, Like.vibeId l = c ∧ Like.isLike l = true)
                  existing _ Hnd Hin) as Hcount.
    simpl in Hcount. destruct (Like.isLike existing), b;
      repeat case_decide; simpl in *; try lia; naive_solver.
  - rewrite !decide_True by done. simpl. rewrite filter_snoc, length_app.
    simpl. destruct b; repeat case_decide; simpl; try lia; naive_solver.
  - intros c' Hc'.
    apply head_filter_Some in Hget as [[Heu Hec] Hin].
    pose proof (count_after_update Like.id (Like.set_isLike b)
                  (λ l, Like.vibeId l = c' ∧ Like.isLike l = true)
                  existing _ Hnd Hin) as Hcount.
    simpl in Hcount. rewrite !decide_False in Hcount by (intros []; congruence).
    lia.
  - intros c' Hc'. rewrite !decide_True by done. simpl.
    rewrite filter_snoc. simpl.
    rewrite decide_False by (intros []; congruence). by rewrite app_nil_r.
Qed.

Lemma createOrUpdateLike_count_witness :
  let db' :=
    (createOrUpdateLike {| il_vibeId := 1; il_userId := 2; il_isLike := false |}
                        40 trendingStore).2 in
  (likesCount 1 db' + (if liked 2 1 trendingStore then 1 else 0)
   = likesCount 1 trendingStore + (if false then 1 else 0))%nat
  ∧ liked 2 1 db' = false
  ∧ ∀ c', c' ≠ 1 → likesCount c' db' = likesCount c' trendingStore.
Proof.
  apply (createOrUpdateLike_count 2 1 40 false trendingStore).
  - exact trendingStore_like_ids.
  - unfold userExists. simpl. set_solver.
  - unfold vibeExists. simpl. set_solver.
Defined.

Lemma getVibeById_exists vibeId db :
  vibeExists vibeId db ↔ is_Some (getVibeById vibeId db).
Proof.
  unfold vibeExists, getVibeById. split.
  - intros (v & -> & Hv)%list_elem_of_fmap.
    assert (v ∈ filter (λ x, Vibe.id x = Vibe.id v) (rows (vibes db))) as Hf
      by by apply list_elem_of_filter.
    destruct (filter _ _); [by apply not_elem_of_nil in Hf | by eexists].
  - intros [v [<- Hv]%head_filter_Some]. by apply list_elem_of_fmap_2.
Qed.

Lemma createOrUpdateLike_ok like now db :
  userExists (il_userId like) db → vibeExists (il_vibeId like) db →
  ∃ r, (createOrUpdateLike like now db).1 = Ok r.
Proof.
  intros Hu Hc. unfold createOrUpdateLike.
  destruct (getLikeByUserAndVibe _ _ db); simpl; [eauto|].
  rewrite !decide_True by done. simpl. eauto.
Qed.

(** X8.  A like request of an authenticated user on an existing vibe is
    answered 201 and appends exactly one "like" notification, addressed
    to the owner of the vibe, when the reaction is a like and the owner
    is another user, whether or not the user already liked the vibe;
    a dislike, or a reaction to one's own vibe, appends none. *)
Theorem post_vibe_like_notifies (db : DB) (u vibeId now : Z) (isLike : bool)
    (vibe : Vibe.t) :
  is_Some (getUser u db) →
  getVibeById vibeId db = Some vibe →
  userExists (Vibe.userId vibe) db →
  let '(res, db') := post_vibe_like (Some u) vibeId (Some isLike) now db in
  (∃ like, res = Ok (mkResponse 201 (JsonLike like)))
  ∧ rows (notifications db')
    = rows (notifications db)
      ++ (if decide (Vibe.userId vibe ≠ u ∧ isLike = true)
          then [Notification.mk (nextId (notifications db))
                  (Vibe.userId vibe) "like" (Some u) (Some vibeId) None
                  false now]
          else []).
Proof.
  intros Hu Hvibe Howner.
  destruct (reqUser_authenticated _ _ Hu) as (user & Hreq & Hid).
  destruct Hu as [x Hx]. apply getUser_Some in Hx as [_ Hex].
  assert (vibeExists vibeId db) as Hv
    by (apply getVibeById_exists; by eexists).
  unfold post_vibe_like, bind, query, send, ret.
  rewrite Hreq. cbv beta iota. rewrite Hid.
  match goal with
  | |- context [createOrUpdateLike ?l now db] =>
      pose proof (createOrUpdateLike_frame l now db) as Hframe;
      destruct (createOrUpdateLike_ok l now db Hex Hv) as [like Hok];
      destruct (createOrUpdateLike l now db) as [r db1]
  end.
  simpl in Hframe, Hok. destruct Hframe as (Hus & Hvs & _ & Hns). subst r.
  assert (getVibeById vibeId db1 = Some vibe) as ->
    by (unfold getVibeById in *; by rewrite Hvs).
  assert (userExists (Vibe.userId vibe) db1 ∧ userExists u db1) as [Ho1 Hu1]
    by (unfold userExists; by rewrite Hus).
  case_decide.
  - unfold createNotification. simpl.
    rewrite !decide_True by done. simpl. rewrite Hns. eauto.
  - rewrite Hns, app_nil_r. eauto.
Qed.

Lemma post_vibe_like_notifies_witness :
  let '(res, db') :=
    post_vibe_like (Some 2) 1 (Some true) 40 trendingStore in
  (∃ like, res = Ok (mkResponse 201 (JsonLike like)))
  ∧ rows (notifications db')
    = rows (notifications trendingStore)
      ++ (if decide (Vibe.userId vibeA ≠ 2 ∧ true = true)
          then [Notification.mk (nextId (notifications trendingStore))
                  (Vibe.userId vibeA) "like" (Some 2) (Some 1) None
                  false 40]
          else []).
Proof.
  apply (post_vibe_like_notifies trendingStore 2 1 40 true vibeA).
  - by eexists.
  - reflexivity.
  - unfold userExists. simpl. set_solver.
Defined.

(** ** Comments *)

#[local] Instance olderCommentFirst_total : Total olderCommentFirst.
Proof. intros a b. unfold olderCommentFirst. lia. Qed.
#[local] Instance olderCommentFirst_trans : Transitive olderCommentFirst.
Proof. intros a b c. unfold olderCommentFirst. lia. Qed.

(** X9.  A comment of an authenticated user on an existing vibe is
    answered 201 with the stored comment, which is then among the comments
    of the vibe; the owner of the vibe, when another user, gets one
    "comment" notification carrying the whole text, and no notification
    is stored for a comment on one's own vibe. *)
Theorem post_vibe_comment_stored (db : DB) (u vibeId now : Z)
    (content : string) (vibe : Vibe.t) :
  is_Some (getUser u db) →
  getVibeById vibeId db = Some vibe →
  userExists (Vibe.userId vibe) db →
  let c := Comment.mk (nextId (comments db)) vibeId u content now in
  let '(res, db') := post_vibe_comment (Some u) vibeId (Some content) now db in
  res = Ok (mkResponse 201 (JsonComment c))
  ∧ rows (comments db') = rows (comments db) ++ [c]
  ∧ c ∈ getCommentsByVibeId vibeId db'
  ∧ rows (notifications db')
    = rows (notifications db)
      ++ (if decide (Vibe.userId vibe ≠ u)
          then [Notification.mk (nextId (notifications db))
                  (Vibe.userId vibe) "comment" (Some u) (Some vibeId)
                  (Some content) false now]
          else []).
Proof.
  intros Hu Hvibe Howner c.
  destruct (reqUser_authenticated _ _ Hu) as (user & Hreq & Hid).
  destruct Hu as [x Hx]. apply getUser_Some in Hx as [_ Hex].
  assert (vibeExists vibeId db) as Hv
    by (apply getVibeById_exists; by eexists).
  assert (∀ db', rows (comments db') = rows (comments db) ++ [c] →
            c ∈ getCommentsByVibeId vibeId db') as Hlisted.
  { intros db' Hrows. unfold getCommentsByVibeId.
    rewrite merge_sort_Permutation, list_elem_of_filter, Hrows.
    split; [done|]. apply elem_of_app. right. left. }
  unfold post_vibe_comment, bind, query, send, ret.
  rewrite Hreq. cbv beta iota. rewrite Hid.
  unfold createComment. simpl. rewrite !decide_True by done. simpl.
  fold c. unfold getVibeById in *. simpl. rewrite Hvibe.
  case_decide.
  - unfold createNotification. simpl.
    rewrite !decide_True by done. simpl. auto.
  - rewrite app_nil_r. auto.
Qed.

Lemma post_vibe_comment_stored_witness :
  let c := Comment.mk 1 1 2 "wagmi" 40 in
  let '(res, db') :=
    post_vibe_comment (Some 2) 1 (Some "wagmi") 40 trendingStore in
  res = Ok (mkResponse 201 (JsonComment c))
  ∧ rows (comments db') = rows (comments trendingStore) ++ [c]
  ∧ c ∈ getCommentsByVibeId 1 db'
  ∧ rows (notifications db')
    = rows (notifications trendingStore)
      ++ (if decide (Vibe.userId vibeA ≠ 2)
          then [Notification.mk (nextId (notifications trendingStore))
                  (Vibe.userId vibeA) "comment" (Some 2) (Some 1)
                  (Some "wagmi") false 40]
          else []).
Proof.
  apply (post_vibe_comment_stored trendingStore 2 1 40 "wagmi" vibeA).
  - by eexists.
  - reflexivity.
  - unfold userExists. simpl. set_solver.
Defined.



(** ** Requests that are refused *)



(** X12.  Whenever a write route answers with an error status (400 and
    above), the store is exactly as before the request: refusals never
    write. *)
Theorem error_answer_leaves_store (r : Request) (now : Z) (db db' : DB)
    (res : Response) :
  handle r now db = (Ok res, db') →
  400 ≤ statusCode res →
  db' = db.
Proof.
  intros Hrun Hcode.
  destruct r; simpl in Hrun;
    unfold post_vibe_comment, post_vibe_like, post_connections,
      put_connection, post_messages, bind, query, send, ret in Hrun;
    repeat match type of Hrun with
           | context [match ?x with _ => _ end] => destruct x
           end;
    simplify_eq/=; try done; lia.
Qed.

Lemma error_answer_leaves_store_witness :
  (handle (PutConnection (Some 3) 1 "accepted") 40 pendingStore).2
  = pendingStore.
Proof.
  apply (error_answer_leaves_store (PutConnection (Some 3) 1 "accepted") 40
           pendingStore _
           (mkResponse 403
              (JsonMessage "Not authorized to update this connection"))).
  - reflexivity.
  - simpl. lia.
Defined.

(** ** A connection from request to acceptance *)

(** X13.  When [a] and [b] are users, no connection (a, b) exists and the
    connection ids come from the sequence, a request of [a] to [b]
    followed by the acceptance of [b] is answered 200 and leaves the
    connection accepted, with the request's creation time, and exactly two
    new notifications: the request, addressed to [b], then the acceptance,
    addressed to [a]. *)
Theorem request_then_accept (db : DB) (a b t1 t2 : Z) :
  is_Some (getUser a db) → is_Some (getUser b db) →
  getConnectionByUsers a b db = None →
  freshIds Connection.id (connections db) →
  let id := nextId (connections db) in
  let accepted := Connection.mk id a b "accepted" t1 in
  let db1 := (post_connections (Some a) (Some b) t1 db).2 in
  let '(res, db2) := put_connection (Some b) id "accepted" t2 db1 in
  res = Ok (mkResponse 200 (JsonConnection (Some accepted)))
  ∧ getConnectionById id db2 = Some accepted
  ∧ getConnectionByUsers a b db2 = Some accepted
  ∧ rows (notifications db2)
    = rows (notifications db)
      ++ [ Notification.mk (nextId (notifications db)) b
             "connection_request" (Some a) (Some id) None false t1;
           Notification.mk (nextId (notifications db) + 1) a
             "connection_accepted" (Some b) (Some id) None false t2 ].
Proof.
  intros Ha Hb Hnone Hfresh id accepted db1.
  destruct (reqUser_authenticated _ _ Ha) as (ua & Hreqa & Hida).
  destruct (reqUser_authenticated _ _ Hb) as (ub & Hreqb & Hidb).
  destruct Ha as [xa Hxa]. apply getUser_Some in Hxa as [_ Hexa].
  destruct Hb as [xb Hxb]. apply getUser_Some in Hxb as [_ Hexb].
  set (pending := Connection.mk id a b "pending" t1).
  set (request := Notification.mk (nextId (notifications db)) b
                    "connection_request" (Some a) (Some id) None false t1).
  assert (db1
          = with_notifications
              (mkTable (rows (notifications db) ++ [request])
                       (nextId (notifications db) + 1))
              (with_connections
                 (mkTable (rows (connections db) ++ [pending]) (id + 1))
                 db)) as Hdb1.
  { unfold db1, post_connections, bind, query, send, ret.
    rewrite Hreqa. cbv beta iota. rewrite Hida. simpl. rewrite Hnone.
    unfold createConnection. simpl. rewrite !decide_True by done. simpl.
    unfold createNotification. simpl. rewrite !decide_True by done. done. }
  clearbody db1.
  apply head_filter_None in Hnone.
  pose proof (freshIds_not_next Connection.id _ Hfresh) as Hnew.
  fold id in Hnew.
  assert (reqUser (Some b) db1 = Some ub) as Hreq1 by by rewrite Hdb1.
  assert (userExists a db1 ∧ userExists b db1) as [Ha1 Hb1]
    by by rewrite Hdb1.
  assert (getConnectionById id db1 = Some pending) as Hget1.
  { rewrite Hdb1. unfold getConnectionById. simpl.
    rewrite filter_snoc, Hnew. simpl. by rewrite decide_True. }
  assert (getConnectionByUsers a b
            (updateConnectionStatus id "accepted" db1).2
          = Some accepted) as Hby.
  { unfold getConnectionByUsers, updateConnectionStatus. simpl.
    rewrite filter_update by (by intros []). rewrite Hdb1. simpl.
    rewrite filter_snoc, Hnone. simpl. rewrite decide_True by done.
    simpl. by rewrite decide_True. }
  destruct (getConnectionById_updated id "accepted" pending db1 Hget1)
    as [Hupd1 Hupd2].
  assert (rows (notifications db1) = rows (notifications db) ++ [request]
          ∧ nextId (notifications db1) = nextId (notifications db) + 1)
    as [Hrows1 Hnext1] by by rewrite Hdb1.
  clear Hdb1.
  unfold put_connection, bind, query, send, ret.
  rewrite Hreq1. cbv beta iota. rewrite decide_True by set_solver.
  rewrite Hget1. cbv beta iota. simpl (Connection.connectedToId pending).
  rewrite Hidb. rewrite decide_False by tauto.
  destruct (updateConnectionStatus id "accepted" db1) as [r db2] eqn:Hupd.
  assert (users db2 = users db1 ∧ notifications db2 = notifications db1)
    as [Hus2 Hns2] by (by injection Hupd as _ <-).
  simpl in Hupd1, Hupd2, Hby. subst r. cbv beta iota.
  rewrite decide_True by done.
  assert (userExists a db2 ∧ userExists b db2) as [Ha2 Hb2]
    by (unfold userExists; by rewrite Hus2).
  unfold createNotification. simpl. rewrite !decide_True by done. simpl.
  split; [done|]. split; [exact Hupd2|]. split; [exact Hby|].
  rewrite Hns2, Hrows1, Hnext1. by rewrite <- app_assoc.
Qed.

Lemma usersOnly_fresh_connections :
  freshIds Connection.id (connections usersOnly).
Proof. intros r Hr. by apply not_elem_of_nil in Hr. Qed.

Lemma request_then_accept_witness :
  let accepted := Connection.mk 1 1 2 "accepted" 40 in
  let db1 := (post_connections (Some 1) (Some 2) 40 usersOnly).2 in
  let '(res, db2) := put_connection (Some 2) 1 "accepted" 41 db1 in
  res = Ok (mkResponse 200 (JsonConnection (Some accepted)))
  ∧ getConnectionById 1 db2 = Some accepted
  ∧ getConnectionByUsers 1 2 db2 = Some accepted
  ∧ rows (notifications db2)
    = rows (notifications usersOnly)
      ++ [ Notification.mk 1 2 "connection_request" (Some 1) (Some 1) None
             false 40;
           Notification.mk (1 + 1) 1 "connection_accepted" (Some 2) (Some 1)
             None false 41 ].
Proof.
  apply (request_then_accept usersOnly 1 2 40 41).
  - by eexists.
  - by eexists.
  - reflexivity.
  - exact usersOnly_fresh_connections.
Defined.

(** ** Listing connections *)

#[local] Instance newerConnectionFirst_total : Total newerConnectionFirst.
Proof. intros a b. unfold newerConnectionFirst. lia. Qed.
#[local] Instance newerConnectionFirst_trans :
  Transitive newerConnectionFirst.
Proof. intros a b c. unfold newerConnectionFirst. lia. Qed.

(** X14.  Whichever way the query builder treats the second [where]:
    without a status (or with an empty one) [getUserConnections] returns
    exactly the connections in which the user is requester or recipient;
    with a status it returns only stored connections of that status, among
    them every such connection of the user; the result is ordered newest
    first. *)
Theorem getUserConnections_listing (mode : WhereMode) (u : Z)
    (status : option string) (db : DB) :
  getUserConnections mode u (Some "") db = getUserConnections mode u None db
  ∧ (∀ c, c ∈ getUserConnections mode u None db
          ↔ c ∈ rows (connections db) ∧ isParty u c)
  ∧ (∀ s c, s ≠ "" →
       (c ∈ getUserConnections mode u (Some s) db →
        c ∈ rows (connections db) ∧ Connection.status c = s)
       ∧ (c ∈ rows (connections db) → isParty u c →
          Connection.status c = s →
          c ∈ getUserConnections mode u (Some s) db))
  ∧ StronglySorted newerConnectionFirst
      (getUserConnections mode u status db).
Proof.
  unfold getUserConnections. split; [done|]. split; [|split].
  - intros c. rewrite merge_sort_Permutation, list_elem_of_filter. tauto.
  - intros s c Hs. rewrite decide_False by done.
    destruct mode; rewrite merge_sort_Permutation, list_elem_of_filter;
      tauto.
  - apply StronglySorted_merge_sort; apply _.
Qed.

(** ** Notifications are append-only for the write routes *)

Lemma prefix_notifications_frame l db db' :
  notifications db' = notifications db →
  l `prefix_of` rows (notifications db) →
  l `prefix_of` rows (notifications db').
Proof. by intros ->. Qed.

Lemma createNotification_prefix l n now :
  preserves (λ db, l `prefix_of` rows (notifications db))
            (createNotification n now).
Proof.
  intros db Hl. unfold createNotification.
  repeat case_decide; simpl; [by apply prefix_app_r | done..].
Qed.

Lemma createComment_prefix l c now :
  preserves (λ db, l `prefix_of` rows (notifications db))
            (createComment c now).
Proof. intros db. apply prefix_notifications_frame, createComment_frame. Qed.

Lemma createMessage_prefix l m now :
  preserves (λ db, l `prefix_of` rows (notifications db))
            (createMessage m now).
Proof. intros db. apply prefix_notifications_frame, createMessage_frame. Qed.

Lemma createOrUpdateLike_prefix l like now :
  preserves (λ db, l `prefix_of` rows (notifications db))
            (createOrUpdateLike like now).
Proof.
  intros db. apply prefix_notifications_frame, createOrUpdateLike_frame.
Qed.

Lemma createConnection_prefix l c now :
  preserves (λ db, l `prefix_of` rows (notifications db))
            (createConnection c now).
Proof.
  intros db. apply prefix_notifications_frame, createConnection_frame.
Qed.

Lemma updateConnectionStatus_prefix l id status :
  preserves (λ db, l `prefix_of` rows (notifications db))
            (updateConnectionStatus id status).
Proof. intros db. by apply prefix_notifications_frame. Qed.

#[local] Hint Resolve
  createNotification_prefix createComment_prefix createMessage_prefix
  createOrUpdateLike_prefix createConnection_prefix
  updateConnectionStatus_prefix : preserves.

Lemma handle_prefix l r now :
  preserves (λ db, l `prefix_of` rows (notifications db)) (handle r now).
Proof.
  destruct r; simpl;
    unfold post_vibe_comment, post_vibe_like, post_connections,
      put_connection, post_messages;
    preserves_handler.
Qed.

(** X15.  Along any sequence of comment, like, connection and message
    requests the notification table only grows at its end: no stored
    notification is removed, reordered or edited, its read flag
    included. *)
Theorem notifications_append_only (rs : list (Request * Z)) (db : DB) :
  rows (notifications db) `prefix_of` rows (notifications (serve rs db)).
Proof.
  apply (serve_preserves
           (λ d, rows (notifications db) `prefix_of` rows (notifications d))).
  - intros r now. apply handle_prefix.
  - done.
Qed.

(** ** Reading and marking notifications *)

#[local] Instance newerNotificationFirst_total : Total newerNotificationFirst.
Proof. intros a b. unfold newerNotificationFirst. lia. Qed.
#[local] Instance newerNotificationFirst_trans :
  Transitive newerNotificationFirst.
Proof. intros a b c. unfold newerNotificationFirst. lia. Qed.

Lemma StronglySorted_filter {A} (R : relation A) (P : A → Prop)
    `{!∀ x, Decision (P x)} (l : list A) :
  StronglySorted R l → StronglySorted R (filter P l).
Proof.
  induction 1 as [|x l Hl IH Hx]; [constructor|].
  rewrite filter_cons. case_decide; [|done].
  constructor; [done|]. apply Forall_forall.
  intros y [_ Hy]%list_elem_of_filter.
  rewrite Forall_forall in Hx. by apply Hx.
Qed.


(** X16.  For an authenticated user, GET /api/notifications answers 200
    with exactly the stored notifications addressed to that user (only the
    read ones for [isRead=true], only the unread ones for [isRead=false],
    all of them for any other value), newest first, whichever way the
    query builder treats the second [where]; the store is unchanged. *)
Theorem get_notifications_own (mode : WhereMode) (db : DB) (u : Z)
    (q : option string) :
  is_Some (getUser u db) →
  ∃ ns, get_notifications mode (Some u) q db = (Ok (ReplyJson 200 ns), db)
        ∧ (∀ n, n ∈ ns
                ↔ n ∈ rows (notifications db)
                  ∧ Notification.userId n = u
                  ∧ (q = Some "true" → Notification.isRead n = true)
                  ∧ (q = Some "false" → Notification.isRead n = false))
        ∧ StronglySorted newerNotificationFirst ns.
Proof.
  intros (user & Hreq & Hid)%reqUser_authenticated.
  eexists. unfold get_notifications, bind, query, ret.
  rewrite Hreq. cbv beta iota. rewrite Hid. split; [done|]. split.
  - intros n. unfold getUserNotifications, parseIsRead.
    rewrite !list_elem_of_filter.
    destruct (decide (q = Some "true")) as [->|Hnt];
      [|destruct (decide (q = Some "false")) as [->|Hnf]];
      destruct mode;
      rewrite merge_sort_Permutation, list_elem_of_filter;
      intuition congruence.
  - do 2 apply StronglySorted_filter.
    apply StronglySorted_merge_sort; apply _.
Qed.

Lemma get_notifications_own_witness :
  ∃ ns, get_notifications WhereReplaces (Some 2) (Some "false") inboxStore
        = (Ok (ReplyJson 200 ns), inboxStore)
        ∧ (∀ n, n ∈ ns
                ↔ n ∈ rows (notifications inboxStore)
                  ∧ Notification.userId n = 2
                  ∧ (Some "false" = Some "true" →
                     Notification.isRead n = true)
                  ∧ (Some "false" = Some "false" →
                     Notification.isRead n = false))
        ∧ StronglySorted newerNotificationFirst ns.
Proof.
  apply (get_notifications_own WhereReplaces inboxStore 2 (Some "false")).
  by eexists.
Defined.


Lemma update_idempotent {A} (P : A → Prop) `{!∀ x, Decision (P x)}
    (f : A → A) (l : list A) :
  (∀ r, P (f r) ↔ P r) → (∀ r, f (f r) = f r) →
  (λ r, if decide (P r) then f r else r)
    <$> ((λ r, if decide (P r) then f r else r) <$> l)
  = (λ r, if decide (P r) then f r else r) <$> l.
Proof.
  intros HP Hf. rewrite <- list_fmap_compose. apply list_fmap_ext.
  intros i r _. simpl. destruct (decide (P r)) as [Hr|Hr].
  - rewrite decide_True by (by apply HP). apply Hf.
  - by rewrite decide_False.
Qed.

Lemma put_notification_read_run caller id db user :
  reqUser (Some caller) db = Some user →
  put_notification_read (Some caller) id db
  = (Ok (ReplyJson 200
           (head (markRead
                    <$> filter (λ n, Notification.id n = id)
                          (rows (notifications db))))),
     with_notifications
       (mkTable
          ((λ r, if decide (Notification.id r = id) then markRead r else r)
             <$> rows (notifications db))
          (nextId (notifications db))) db).
Proof.
  intros Hreq. unfold put_notification_read, bind, query, ret.
  by rewrite Hreq.
Qed.

(** X17.  With distinct notification ids, a mark-as-read request of any
    authenticated user for a stored notification, the user's own or not,
    is answered 200 with the notification marked read; afterwards the
    table holds that notification read and every other one as it was;
    and repeating the request changes nothing more. *)
Theorem put_notification_read_marks (db : DB) (caller : Z)
    (n : Notification.t) :
  is_Some (getUser caller db) →
  NoDup (Notification.id <$> rows (notifications db)) →
  n ∈ rows (notifications db) →
  let '(res, db') :=
    put_notification_read (Some caller) (Notification.id n) db in
  res = Ok (ReplyJson 200 (Some (markRead n)))
  ∧ (∀ r, r ∈ rows (notifications db')
          ↔ r = markRead n
            ∨ (r ∈ rows (notifications db)
               ∧ Notification.id r ≠ Notification.id n))
  ∧ put_notification_read (Some caller) (Notification.id n) db'
    = (Ok (ReplyJson 200 (Some (markRead n))), db').
Proof.
  intros (user & Hreq & Hid)%reqUser_authenticated Hnd Hn.
  rewrite (put_notification_read_run _ _ _ _ Hreq).
  rewrite (filter_id_singleton Notification.id) by done. simpl.
  split; [done|]. split.
  - intros r. rewrite list_elem_of_fmap. split.
    + intros (x & -> & Hx). case_decide as Hxn.
      * left. f_equal.
        by apply (NoDup_fmap_elem_inj Notification.id
                    (rows (notifications db))).
      * right. done.
    + intros [->|[Hr Hne]].
      * exists n. by rewrite decide_True.
      * exists r. by rewrite decide_False.
  - erewrite put_notification_read_run by exact Hreq. simpl.
    rewrite filter_update_same by done.
    rewrite (filter_id_singleton Notification.id) by done. simpl.
    rewrite update_idempotent by (by intros []). done.
Qed.

Lemma inboxStore_notification_ids :
  NoDup (Notification.id <$> rows (notifications inboxStore)).
Proof. apply (bool_decide_unpack _). vm_compute. reflexivity. Qed.

Lemma put_notification_read_marks_witness :
  let n := Notification.mk 3 2 "connection_request" (Some 3) (Some 1) None
             false 12 in
  let '(res, db') := put_notification_read (Some 1) 3 inboxStore in
  res = Ok (ReplyJson 200 (Some (markRead n)))
  ∧ (∀ r, r ∈ rows (notifications db')
          ↔ r = markRead n
            ∨ (r ∈ rows (notifications inboxStore)
               ∧ Notification.id r ≠ Notification.id n))
  ∧ put_notification_read (Some 1) 3 db'
    = (Ok (ReplyJson 200 (Some (markRead n))), db').
Proof.
  apply (put_notification_read_marks inboxStore 1
           (Notification.mk 3 2 "connection_request" (Some 3) (Some 1) None
              false 12)).
  - by eexists.
  - exact inboxStore_notification_ids.
  - simpl. set_solver.
Defined.



(** ** Messages *)

#[local] Instance olderMessageFirst_total : Total olderMessageFirst.
Proof. intros a b. unfold olderMessageFirst. lia. Qed.
#[local] Instance olderMessageFirst_trans : Transitive olderMessageFirst.
Proof. intros a b c. unfold olderMessageFirst. lia. Qed.

Lemma getMessagesBetweenUsers_sym a b db :
  getMessagesBetweenUsers a b db = getMessagesBetweenUsers b a db.
Proof.
  unfold getMessagesBetweenUsers. f_equal. apply list_filter_iff.
  intros m. unfold isBetween. tauto.
Qed.



Lemma substring_0_length (n : nat) (s : string) :
  String.length (String.substring 0 n s) = min n (String.length s).
Proof.
  revert s. induction n as [|n IH]; intros [|c s]; simpl; try done.
  by rewrite IH.
Qed.

Lemma substring_0_prefix (n : nat) (s : string) :
  String.prefix (String.substring 0 n s) s = true.
Proof.
  revert s. induction n as [|n IH]; intros [|c s]; simpl; try done.
  destruct (Ascii.ascii_dec c c); [apply IH | done].
Qed.

(** X20.  A message of an authenticated user to an existing user is
    answered 201 with the stored message, which then belongs to the
    conversation of the two users seen from either side; the receiver
    gets one "message" notification whose text is the first 50 characters
    of the message: a prefix of it, of length min(50, length). *)
Theorem post_messages_stored (db : DB) (u r now : Z) (content : string) :
  is_Some (getUser u db) →
  userExists r db →
  let m := Message.mk (nextId (messages db)) u r content false now in
  let '(res, db') := post_messages (Some u) (Some r) (Some content) now db in
  res = Ok (mkResponse 201 (JsonChatMessage m))
  ∧ m ∈ getMessagesBetweenUsers u r db'
  ∧ m ∈ getMessagesBetweenUsers r u db'
  ∧ ∃ snippet,
      rows (notifications db')
      = rows (notifications db)
        ++ [Notification.mk (nextId (notifications db)) r "message"
              (Some u) (Some (Message.id m)) (Some snippet) false now]
      ∧ String.length snippet = min 50 (String.length content)
      ∧ String.prefix snippet content = true.
Proof.
  intros Hu Hr m.
  destruct (reqUser_authenticated _ _ Hu) as (user & Hreq & Hid).
  destruct Hu as [x Hx]. apply getUser_Some in Hx as [_ Hex].
  unfold post_messages, bind, query, send, ret.
  rewrite Hreq. cbv beta iota. rewrite Hid.
  unfold createMessage. simpl. rewrite !decide_True by done. simpl.
  unfold createNotification. simpl. rewrite !decide_True by done. simpl.
  fold m.
  assert (m ∈ getMessagesBetweenUsers u r
                (with_messages
                   (mkTable (rows (messages db) ++ [m])
                            (nextId (messages db) + 1)) db)) as Hin.
  { unfold getMessagesBetweenUsers. simpl.
    rewrite merge_sort_Permutation, list_elem_of_filter.
    split; [by left|]. apply elem_of_app. right. left. }
  split; [done|]. split; [exact Hin|].
  split; [rewrite getMessagesBetweenUsers_sym; exact Hin|].
  eexists. split; [done|].
  split; [apply substring_0_length | apply substring_0_prefix].
Qed.

Lemma post_messages_stored_witness :
  let m := Message.mk 4 3 2 "gm" false 40 in
  let '(res, db') := post_messages (Some 3) (Some 2) (Some "gm") 40 chatStore
  in
  res = Ok (mkResponse 201 (JsonChatMessage m))
  ∧ m ∈ getMessagesBetweenUsers 3 2 db'
  ∧ m ∈ getMessagesBetweenUsers 2 3 db'
  ∧ ∃ snippet,
      rows (notifications db')
      = rows (notifications chatStore)
        ++ [Notification.mk (nextId (notifications chatStore)) 2 "message"
              (Some 3) (Some (Message.id m)) (Some snippet) false 40]
      ∧ String.length snippet = min 50 (String.length "gm")
      ∧ String.prefix snippet "gm" = true.
Proof.
  apply (post_messages_stored chatStore 3 2 40 "gm").
  - by eexists.
  - unfold userExists. simpl. set_solver.
Defined.



(** ** Users to connect with *)

Lemma sliceTo_elem_of {A} (limit : Z) (l : list A) x :
  x ∈ sliceTo limit l → x ∈ l.
Proof. unfold sliceTo. case_decide; apply elem_of_take_elem_of. Qed.

Lemma sliceTo_length {A} (limit : Z) (l : list A) :
  0 ≤ limit → (length (sliceTo limit l) ≤ Z.to_nat limit)%nat.
Proof.
  intros Hl. unfold sliceTo. rewrite decide_False by lia.
  rewrite length_take. lia.
Qed.

(** X22.  For an authenticated user whose id is not 0, GET
    /api/users/connect answers 200 with stored user rows, whole (the
    password column included), none of which is the caller; with a search
    text every listed user matches it in the username or the display name;
    at most [limit] users are listed, 50 when the limit is absent, not a
    number or 0; the store is unchanged. *)
Theorem get_users_connect_lists_others (lowerCase : string → string)
    (db : DB) (u : Z) (limit : option Z) (search : option string) :
  is_Some (getUser u db) →
  u ≠ 0 →
  ∃ us, get_users_connect lowerCase (Some u) limit search db
        = (Ok (ReplyJson 200 us), db)
        ∧ (∀ x, x ∈ us →
                x ∈ rows (users db) ∧ User.id x ≠ u
                ∧ (lowerCase (default "" search) ≠ "" →
                   matchesSearch lowerCase (lowerCase (default "" search)) x))
        ∧ (∀ n, limit = Some n → 0 < n → (length us ≤ Z.to_nat n)%nat)
        ∧ (limit = None ∨ limit = Some 0 → (length us ≤ 50)%nat).
Proof.
  intros (user & Hreq & Hid)%reqUser_authenticated Hu.
  eexists. unfold get_users_connect, bind, query, ret.
  rewrite Hreq. cbv beta iota. rewrite Hid. split; [done|].
  unfold getAllUsers. rewrite (decide_False (P := u = 0)) by done.
  split; [|split].
  - intros x Hx%sliceTo_elem_of. case_decide as Hs.
    + apply list_elem_of_filter in Hx as [? ?]. done.
    + apply list_elem_of_filter in Hx as [Hm Hx].
      apply list_elem_of_filter in Hx as [? ?]. done.
  - intros n -> Hn. rewrite decide_False by lia.
    apply sliceTo_length. lia.
  - intros [->| ->]; [|rewrite decide_True by done];
      apply (sliceTo_length 50); lia.
Qed.

Lemma get_users_connect_lists_others_witness :
  ∃ us, get_users_connect toLowerCase (Some 1) (Some 1) (Some "O") usersOnly
        = (Ok (ReplyJson 200 us), usersOnly)
        ∧ (∀ x, x ∈ us →
                x ∈ rows (users usersOnly) ∧ User.id x ≠ 1
                ∧ (toLowerCase (default "" (Some "O")) ≠ "" →
                   matchesSearch toLowerCase
                     (toLowerCase (default "" (Some "O"))) x))
        ∧ (∀ n, Some 1 = Some n → 0 < n → (length us ≤ Z.to_nat n)%nat)
        ∧ (Some 1 = None ∨ Some 1 = Some 0 → (length us ≤ 50)%nat).
Proof.
  apply (get_users_connect_lists_others toLowerCase usersOnly 1 (Some 1)
           (Some "O")).
  - by eexists.
  - lia.
Defined.

(** ** Primary keys along a sequence of requests *)

Lemma insertRow_sequenced {A} (id : A → Z) (t : Table A) (r : A) :
  id r = nextId t →
  wellSequenced id t →
  wellSequenced id (mkTable (rows t ++ [r]) (nextId t + 1)).
Proof.
  intros Hid [Hnd Hfresh]. unfold wellSequenced, freshIds.
  cbn [rows nextId]. split.
  - rewrite fmap_app. apply NoDup_app. split; [done|]. split.
    + intros i (x & -> & Hx)%list_elem_of_fmap Hin. simpl in Hin.
      apply list_elem_of_singleton in Hin.
      apply Hfresh in Hx. lia.
    + simpl. apply NoDup_singleton.
  - intros x [Hx| ->%list_elem_of_singleton]%elem_of_app.
    + apply Hfresh in Hx. lia.
    + lia.
Qed.

Lemma updateRows_sequenced {A} (id : A → Z) (P : A → Prop)
    `{!∀ x, Decision (P x)} (f : A → A) (t : Table A) :
  (∀ r, id (f r) = id r) →
  wellSequenced id t →
  wellSequenced id
    (mkTable ((λ r, if decide (P r) then f r else r) <$> rows t) (nextId t)).
Proof.
  intros Hid [Hnd Hfresh]. unfold wellSequenced, freshIds.
  cbn [rows nextId].
  assert (∀ r, id (if decide (P r) then f r else r) = id r) as Hsame
    by (intros r; by case_decide).
  split.
  - replace (id <$> ((λ r, if decide (P r) then f r else r) <$> rows t))
      with (id <$> rows t); [done|].
    rewrite <- list_fmap_compose. apply list_fmap_ext.
    intros i r _. simpl. by rewrite Hsame.
  - intros r (x & -> & Hx)%list_elem_of_fmap.
    rewrite Hsame. by apply Hfresh.
Qed.

(** Splits [storeSequenced] into its five tables; the tables that a call
    leaves alone are closed by the hypotheses. *)
Ltac sequenced_tables :=
  simpl; split; [|split; [|split; [|split]]]; try done.

Lemma createComment_sequenced c now :
  preserves storeSequenced (createComment c now).
Proof.
  intros db (? & ? & ? & ? & ?). unfold createComment.
  repeat case_decide; sequenced_tables.
  by apply insertRow_sequenced.
Qed.

Lemma createOrUpdateLike_sequenced like now :
  preserves storeSequenced (createOrUpdateLike like now).
Proof.
  intros db (? & ? & ? & ? & ?). unfold createOrUpdateLike.
  destruct (getLikeByUserAndVibe _ _ db); [sequenced_tables|].
  - by apply updateRows_sequenced.
  - repeat case_decide; sequenced_tables.
    by apply insertRow_sequenced.
Qed.

Lemma createConnection_sequenced c now :
  preserves storeSequenced (createConnection c now).
Proof.
  intros db (? & ? & ? & ? & ?). unfold createConnection.
  repeat case_decide; sequenced_tables.
  by apply insertRow_sequenced.
Qed.

Lemma updateConnectionStatus_sequenced id status :
  preserves storeSequenced (updateConnectionStatus id status).
Proof.
  intros db (? & ? & ? & ? & ?). unfold updateConnectionStatus.
  sequenced_tables. by apply updateRows_sequenced.
Qed.

Lemma createNotification_sequenced n now :
  preserves storeSequenced (createNotification n now).
Proof.
  intros db (? & ? & ? & ? & ?). unfold createNotification.
  repeat case_decide; sequenced_tables.
  by apply insertRow_sequenced.
Qed.

Lemma createMessage_sequenced m now :
  preserves storeSequenced (createMessage m now).
Proof.
  intros db (? & ? & ? & ? & ?). unfold createMessage.
  repeat case_decide; sequenced_tables.
  by apply insertRow_sequenced.
Qed.

#[local] Hint Resolve
  createComment_sequenced createOrUpdateLike_sequenced
  createConnection_sequenced updateConnectionStatus_sequenced
  createNotification_sequenced createMessage_sequenced : preserves.

Lemma handle_sequenced r now : preserves storeSequenced (handle r now).
Proof.
  destruct r; simpl;
    unfold post_vibe_comment, post_vibe_like, post_connections,
      put_connection, post_messages;
    preserves_handler.
Qed.

(** X23.  Along any sequence of comment, like, connection and message
    requests, in each of the tables they write the ids stay distinct and
    below the next value of the table's sequence: no route changes an id
    or reuses one, a reaction that is toggled keeps its row. *)
Theorem serve_keeps_primary_keys (rs : list (Request * Z)) (db : DB) :
  storeSequenced db → storeSequenced (serve rs db).
Proof. apply serve_preserves. apply handle_sequenced. Qed.

Lemma trendingStore_sequenced : storeSequenced trendingStore.
Proof.
  assert (∀ A (id : A → Z), wellSequenced id (@emptyTable A)) as Hempty.
  { intros A id. split; [constructor|]. by intros r ?%not_elem_of_nil. }
  repeat split; try apply Hempty.
  - exact trendingStore_like_ids.
  - intros r Hr. simpl in Hr.
    repeat (apply elem_of_cons in Hr as [->|Hr]; [simpl; lia|]).
    by apply not_elem_of_nil in Hr.
Qed.

Lemma serve_keeps_primary_keys_witness :
  storeSequenced
    (serve [ (PostVibeLike (Some 3) 3 (Some true), 40);
             (PostVibeComment (Some 2) 1 (Some "wagmi"), 41);
             (PostVibeLike (Some 3) 3 (Some false), 42) ] trendingStore).
Proof.
  apply (serve_keeps_primary_keys
           [ (PostVibeLike (Some 3) 3 (Some true), 40);
             (PostVibeComment (Some 2) 1 (Some "wagmi"), 41);
             (PostVibeLike (Some 3) 3 (Some false), 42) ] trendingStore).
  exact trendingStore_sequenced.
Defined.

(** ** The current user *)




